(** * Pod storage on etcd: the binding protocol and the status surface

    A shallow embedding of the pod registry (package [etcd] of the pod
    registry: [NewStorage], [BindingREST.Create], [setPodHostAndAnnotations],
    [assignPod], [StatusREST.Update]) together with models of the collaborators
    it calls: the etcd client, [tools.EtcdHelper.AtomicUpdate], the error
    constructors of [pkg/api/errors] and the translations of
    [pkg/api/errors/etcd]. *)

From Stdlib Require Import ZArith Lia Ascii String.
From stdpp Require Import base strings gmap list fin_maps.

Open Scope string_scope.
Open Scope Z_scope.

(** ** Go values *)

(** A Go call either returns or panics. *)
Inductive go (A : Type) : Type :=
  | ret (a : A)
  | panic (msg : string).
Arguments ret {A} a.
Arguments panic {A} msg.

(** A [map[string]string]; the nil map is [None]. *)
Abbreviation gomap := (option (gmap string string)).

(** [make(map[string]string)]. *)
Definition make_map : gomap := Some ∅.

(** [m[k] = v]: panics on the nil map. *)
Definition mapassign (m : gomap) (k v : string) : go gomap :=
  match m with
  | None => panic "assignment to entry in nil map"
  | Some g => ret (Some (<[k:=v]> g))
  end.

(** [m[k]], with the comma-ok flag as the option; reading the nil map is fine. *)
Definition mapaccess (m : gomap) (k : string) : option string :=
  match m with
  | None => None
  | Some g => g !! k
  end.

(** [for k, v := range m { body }] over a state [A]; a nil map has no entries. *)
Definition maprange {A : Type} (m : gomap) (body : string → string → A → A) (a : A) : A :=
  match m with
  | None => a
  | Some g => map_fold body a g
  end.

(** [strconv.Quote], which [%q] prints, on strings of bytes below 0x7f
    ([quotable] below): the string between double quotes, with the quote, the
    backslash and the control characters escaped. The versions of Go differ
    on the byte 0x7f, which is written here as the later ones write it; and
    Go reads the bytes from 0x80 on as UTF-8, and escapes what is no valid
    encoding or does not print by the tables of the Unicode standard, which
    are no part of this development: [quoteByte] copies these bytes. So
    [quote] is [strconv.Quote] on the strings that are [quotable], and every
    statement about the text that [%q] prints is made for such strings. *)
Definition dquote : ascii := "034"%char.
Definition backslash : ascii := "092"%char.

Definition hexdigit (n : N) : ascii :=
  ascii_of_N (if (n <? 10)%N then 48 + n else 87 + n)%N.

Definition quoteByte (c : ascii) : string :=
  let n := N_of_ascii c in
  let esc (x : ascii) := String backslash (String x EmptyString) in
  if (n =? 34)%N then esc dquote
  else if (n =? 92)%N then esc backslash
  else if (n =? 7)%N then esc "a"%char
  else if (n =? 8)%N then esc "b"%char
  else if (n =? 12)%N then esc "f"%char
  else if (n =? 10)%N then esc "n"%char
  else if (n =? 13)%N then esc "r"%char
  else if (n =? 9)%N then esc "t"%char
  else if (n =? 11)%N then esc "v"%char
  else if ((n <? 32) || (n =? 127))%N then
    String backslash (String "x"%char
      (String (hexdigit (n / 16)) (String (hexdigit (n mod 16)) EmptyString)))
  else String c EmptyString.

Fixpoint quoteBody (s : string) : string :=
  match s with
  | EmptyString => EmptyString
  | String c s' => quoteByte c +:+ quoteBody s'
  end.

Definition quote (s : string) : string :=
  String dquote (quoteBody s +:+ String dquote EmptyString).

(** The strings of bytes below 0x7f, on which [quote] is [strconv.Quote]. *)
Fixpoint quotable (s : string) : bool :=
  match s with
  | EmptyString => true
  | String c s' => (N_of_ascii c <? 127)%N && quotable s'
  end.

(** Bytes that [quote] leaves alone. *)
Definition plainByte (c : ascii) : bool :=
  let n := N_of_ascii c in
  ((32 <=? n) && (n <? 127) && negb (n =? 34) && negb (n =? 92))%N.

Fixpoint plain (s : string) : bool :=
  match s with
  | EmptyString => true
  | String c s' => plainByte c && plain s'
  end.

(** [sub] occurs in [s]. *)
Definition contains (s sub : string) : Prop :=
  ∃ pre post : string, s = pre +:+ sub +:+ post.

(** ** API objects (package [api]) *)

(** The api package is not part of the sources at hand; the records below hold
    the fields the storage code reads and writes, and a few of their
    neighbours in the spec and in the status of a pod. *)
Module ObjectMeta.
Record t := mk {
  Name : string;
  Namespace : string;
  Annotations : gomap
}.
End ObjectMeta.

Module PodSpec.
Record t := mk {
  RestartPolicy : string;
  DNSPolicy : string;
  Host : string
}.
End PodSpec.

Module PodStatus.
Record t := mk {
  Phase : string;
  Message : string;
  Host : string;
  HostIP : string;
  PodIP : string
}.
End PodStatus.

Module ObjectReference.
Record t := mk {
  Kind : string;
  Name : string
}.
End ObjectReference.

Record Pod := mkPod {
  PodMeta : ObjectMeta.t;
  Spec : PodSpec.t;
  Status : PodStatus.t
}.

Record Binding := mkBinding {
  BindingMeta : ObjectMeta.t;
  Target : ObjectReference.t
}.

(** [api.Status], of which [Create] sets the [Status] field only. *)
Record ApiStatus := mkStatus { StatusField : string }.
Definition StatusSuccess : string := "Success".

(** [&api.Pod{}]. *)
Definition emptyPod : Pod :=
  mkPod (ObjectMeta.mk "" "" None) (PodSpec.mk "" "" "")
        (PodStatus.mk "" "" "" "" "").

(** Field assignments. *)
Definition setSpecHost (pod : Pod) (h : string) : Pod :=
  mkPod (PodMeta pod)
        (PodSpec.mk (PodSpec.RestartPolicy (Spec pod)) (PodSpec.DNSPolicy (Spec pod)) h)
        (Status pod).

Definition setStatusHost (pod : Pod) (h : string) : Pod :=
  mkPod (PodMeta pod) (Spec pod)
        (PodStatus.mk (PodStatus.Phase (Status pod)) (PodStatus.Message (Status pod)) h
                      (PodStatus.HostIP (Status pod)) (PodStatus.PodIP (Status pod))).

Definition setAnnotations (pod : Pod) (a : gomap) : Pod :=
  mkPod (ObjectMeta.mk (ObjectMeta.Name (PodMeta pod)) (ObjectMeta.Namespace (PodMeta pod)) a)
        (Spec pod) (Status pod).

Definition setSpec (pod : Pod) (sp : PodSpec.t) : Pod :=
  mkPod (PodMeta pod) sp (Status pod).

(** [api.Context]: the namespace of the request, when it has one. *)
Definition Context := option string.

(** ** Errors *)

Module fielderrors.
Inductive ValidationErrorType :=
  | ValidationErrorTypeRequired
  | ValidationErrorTypeInvalid.

Record ValidationError := mk {
  Type_ : ValidationErrorType;
  Field : string;
  BadValue : string;
  Detail : string
}.

Definition NewFieldInvalid (field value detail : string) : ValidationError :=
  mk ValidationErrorTypeInvalid field value detail.

Definition NewFieldRequired (field : string) : ValidationError :=
  mk ValidationErrorTypeRequired field "" "".
End fielderrors.

(** A Go [error] value. The first two constructors are errors that are not
    a [StatusError]: the etcd client's error and a plain error such as
    [fmt.Errorf] builds (also a timeout or a refused connection). The
    remaining ones are the [StatusError] values, named after the
    functions of [pkg/api/errors] that build them. *)
Inductive error :=
  | EtcdError (ErrorCode : Z) (Message : string)
  | Errorf (msg : string)
  | NewNotFound (kind name : string)
  | NewConflict (kind name : string) (err : error)
  | NewInvalid (kind name : string) (errs : list fielderrors.ValidationError)
  | NewBadRequest (reason : string).

(** The domain kinds of the error taxonomy. *)
Inductive StatusReason :=
  | StatusReasonNotFound
  | StatusReasonConflict
  | StatusReasonInvalid
  | StatusReasonBadRequest.

(** The type assertion of [err] to a [StatusError] pointer: the reason when it
    holds. *)
Definition asStatusError (e : error) : option StatusReason :=
  match e with
  | NewNotFound _ _ => Some StatusReasonNotFound
  | NewConflict _ _ _ => Some StatusReasonConflict
  | NewInvalid _ _ _ => Some StatusReasonInvalid
  | NewBadRequest _ => Some StatusReasonBadRequest
  | EtcdError _ _ | Errorf _ => None
  end.

Definition isStatusError (e : error) : bool :=
  match asStatusError e with Some _ => true | None => false end.

Definition IsConflict (e : error) : bool :=
  match asStatusError e with Some StatusReasonConflict => true | _ => false end.

Definition IsNotFound (e : error) : bool :=
  match asStatusError e with Some StatusReasonNotFound => true | _ => false end.

(** A Go result pair [(T, error)] in which at most one side is set. *)
Inductive result (A : Type) : Type :=
  | Ok (a : A)
  | Err (e : error).
Arguments Ok {A} a.
Arguments Err {A} e.

(** The monad of [go]. *)
Definition go_bind {A B : Type} (m : go A) (k : A → go B) : go B :=
  match m with
  | ret a => k a
  | panic msg => panic msg
  end.

#[global] Instance go_ret : MRet go := λ A a, ret a.
#[global] Instance go_mbind : MBind go := λ A B k m, go_bind m k.

(** ** The etcd client *)

Module etcd.

Definition EcodeKeyNotFound : Z := 100.
Definition EcodeTestFailed : Z := 101.
Definition EcodeNodeExist : Z := 105.

(** Modelled from the spec: a stored value with its version, the index of
    the write that put it there. *)
Record Node := mkNode {
  Value : Pod;
  ModifiedIndex : Z
}.

(** The requests a client sends. *)
Inductive request :=
  | GetReq (key : string)
  | CreateReq (key : string)
  | CompareAndSwapReq (key : string) (prevIndex : Z).

(** Modelled from the spec: a transient or infrastructure failure of the
    store (a timeout, a lost connection). The requests it strikes fail with
    the error [reply]. The caller of a request that timed out cannot tell
    whether the store carried it out: [carriedOut] says whether a request
    that was struck took effect before its reply was lost, or never reached
    the store. *)
Record fault := mkFault {
  strikes : request → bool;
  carriedOut : bool;
  reply : error
}.

(** Modelled from the spec: the store cannot be reached, and every request
    fails before it has any effect. *)
Definition unreachable (e : error) : fault := mkFault (λ _, true) false e.

(** Modelled from the spec: the versioned store, whose implementation is not
    part of the sources. Every value carries the version of its last write
    ([ModifiedIndex]), taken from a counter that grows with every write
    ([index]). [outage], when set, is the failure the store suffers from;
    [requests] is the trace of the requests received so far. *)
Record t := mk {
  nodes : gmap string Node;
  index : Z;
  outage : option fault;
  requests : list request
}.

(** The store takes note of a request. *)
Definition received (q : request) (s : t) : t :=
  mk (nodes s) (index s) (outage s) (requests s ++ [q]).

(** Modelled from the spec: a write, which gives the value the next
    version. *)
Definition put (key : string) (v : Pod) (s : t) : t * Node :=
  let i := index s + 1 in
  (mk (<[key := mkNode v i]> (nodes s)) i (outage s) (requests s), mkNode v i).

(** Modelled from the spec: the failure that strikes the request [q], if
    any. *)
Definition struck (q : request) (s : t) : option fault :=
  match outage s with
  | Some f => if strikes f q then Some f else None
  | None => None
  end.

(** No request of which the reply is lost has been carried out: a request
    that fails has had no effect. *)
Definition failsCleanly (s : t) : bool :=
  match outage s with
  | Some f => negb (carriedOut f)
  | None => true
  end.

(** Modelled from the spec: a write that is struck by a failure fails with
    the error of the failure, after the store carried it out ([done]) or
    without any effect. *)
Definition lostReply (f : fault) (s : t) (done : t * result Node) : t * result Node :=
  if carriedOut f then (done.1, Err (reply f)) else (s, Err (reply f)).

(** Modelled from the spec: [get(key) -> (value, version)] of the store
    protocol; a missing key is the store's not-found error, and a read that
    a failure strikes fails with the error of the failure. *)
Definition Get (key : string) (s : t) : t * result Node :=
  let s := received (GetReq key) s in
  match struck (GetReq key) s with
  | Some f => (s, Err (reply f))
  | None =>
    match nodes s !! key with
    | None => (s, Err (EtcdError EcodeKeyNotFound "Key not found"))
    | Some n => (s, Ok n)
    end
  end.

(** Modelled from the spec: [create(key, value) -> version] of the store
    protocol; it fails when the key exists. When a failure strikes the
    request, the caller gets the error of the failure, and the store has
    carried the request out or has not. *)
Definition Create (key : string) (v : Pod) (s : t) : t * result Node :=
  let s := received (CreateReq key) s in
  let done :=
    match nodes s !! key with
    | Some _ => (s, Err (EtcdError EcodeNodeExist "Key already exists"))
    | None => let '(s', n) := put key v s in (s', Ok n)
    end in
  match struck (CreateReq key) s with
  | Some f => lostReply f s done
  | None => done
  end.

(** Modelled from the spec: the compare-and-swap of the store, an update that
    succeeds only if the stored version matches the version last observed by
    the writer, and fails with the update-conflict error otherwise. When a
    failure strikes the request, the caller gets the error of the failure,
    and the store has carried the request out or has not: the outcome of a
    call that timed out is unknown to its caller. *)
Definition CompareAndSwap (key : string) (v : Pod) (prevIndex : Z) (s : t) : t * result Node :=
  let s := received (CompareAndSwapReq key prevIndex) s in
  let done :=
    match nodes s !! key with
    | None => (s, Err (EtcdError EcodeKeyNotFound "Key not found"))
    | Some n =>
      if ModifiedIndex n =? prevIndex
      then let '(s', n') := put key v s in (s', Ok n')
      else (s, Err (EtcdError EcodeTestFailed "Compare failed"))
    end in
  match struck (CompareAndSwapReq key prevIndex) s with
  | Some f => lostReply f s done
  | None => done
  end.

End etcd.

(** ** The etcd helper (package [tools]) *)

Module tools.

(** Modelled from the spec: the store errors the coordinator tells apart, a
    not-found error and an update conflict (a failed comparison, or a key
    that exists already when it is created). *)
Definition IsEtcdNotFound (e : error) : bool :=
  match e with
  | EtcdError c _ => c =? etcd.EcodeKeyNotFound
  | _ => false
  end.

(** Modelled from the spec: the update conflict of a failed comparison. *)
Definition IsEtcdTestFailed (e : error) : bool :=
  match e with
  | EtcdError c _ => c =? etcd.EcodeTestFailed
  | _ => false
  end.

(** Modelled from the spec: the update conflict of a creation whose key
    exists. *)
Definition IsEtcdNodeExist (e : error) : bool :=
  match e with
  | EtcdError c _ => c =? etcd.EcodeNodeExist
  | _ => false
  end.

(** Modelled from the spec: the store helper, whose retry loop is bounded;
    [Retries] caps how often [AtomicUpdate] tries again after a version
    race. *)
Record EtcdHelper := mkHelper {
  Retries : nat
}.

(** An [EtcdUpdateFunc] that closes over a variable of type [C]: it gets the
    current object and the captured variable, and returns the new value of
    the captured variable with the object and ttl to store, or an error. *)
Definition EtcdUpdateFunc (C : Type) : Type :=
  Pod → C → go (C * result (Pod * Z)).

(** Modelled from the spec: the object handed to the mutation function, the
    stored one with its version; with [ignoreNotFound], the empty object and
    version 0 for a missing key. *)
Definition bodyAndExtractObj (ignoreNotFound : bool) (r : result etcd.Node) : result (Pod * Z) :=
  match r with
  | Ok n => Ok (etcd.Value n, etcd.ModifiedIndex n)
  | Err e =>
    if ignoreNotFound && IsEtcdNotFound e then Ok (emptyPod, 0) else Err e
  end.

(** Modelled from the spec: the write that ends an attempt, a creation when
    the key was missing, a compare-and-swap against the version read
    otherwise. *)
Definition writeBack (key : string) (o : Pod) (index : Z) (s : etcd.t) : etcd.t * result etcd.Node :=
  if index =? 0 then etcd.Create key o s else etcd.CompareAndSwap key o index s.

(** Modelled from the spec: the errors of [writeBack] that are version
    races, on which the helper starts over. *)
Definition raced (index : Z) (e : error) : bool :=
  if index =? 0 then IsEtcdNodeExist e else IsEtcdTestFailed e.

(** Modelled from the spec: the atomic update-if-unchanged of the store
    helper, which is not part of the sources: read the record, apply the
    caller's mutation function, compare-and-swap the outcome, and on a
    version race start over, up to [n] more times, after which the conflict
    error surfaces. A rejection by the mutation function ends the call with
    that error. *)
Fixpoint atomicUpdate {C : Type} (n : nat) (key : string) (ignoreNotFound : bool)
    (tryUpdate : EtcdUpdateFunc C) (c : C) (s : etcd.t) : etcd.t * go (C * option error) :=
  let '(s1, r) := etcd.Get key s in
  match bodyAndExtractObj ignoreNotFound r with
  | Err e => (s1, ret (c, Some e))
  | Ok (obj, index) =>
    match tryUpdate obj c with
    | panic msg => (s1, panic msg)
    | ret (c1, Err e) => (s1, ret (c1, Some e))
    | ret (c1, Ok (o, _)) =>
      let '(s2, w) := writeBack key o index s1 in
      match w with
      | Ok _ => (s2, ret (c1, None))
      | Err e =>
        if raced index e then
          match n with
          | O => (s2, ret (c1, Some e))
          | S n' => atomicUpdate n' key ignoreNotFound tryUpdate c1 s2
          end
        else (s2, ret (c1, Some e))
      end
    end
  end.

(** Modelled from the spec: [AtomicUpdate] of the helper, with the cap of the
    helper on the retries. *)
Definition AtomicUpdate {C : Type} (h : EtcdHelper) (key : string) (ignoreNotFound : bool)
    (tryUpdate : EtcdUpdateFunc C) (c : C) (s : etcd.t) : etcd.t * go (C * option error) :=
  atomicUpdate (Retries h) key ignoreNotFound tryUpdate c s.

End tools.

(** ** Translating store errors (package [etcderr]) *)

Module etcderr.

(** Modelled from the spec: a not-found store error becomes [NotFound]; any
    other error is returned as it is. *)
Definition InterpretGetError (err : error) (kind name : string) : error :=
  if tools.IsEtcdNotFound err then NewNotFound kind name else err.

(** Modelled from the spec: an update conflict of the store becomes
    [Conflict]; any other error is returned as it is. *)
Definition InterpretUpdateError (err : error) (kind name : string) : error :=
  if tools.IsEtcdTestFailed err || tools.IsEtcdNodeExist err
  then NewConflict kind name err
  else err.

End etcderr.

(** ** The generic registry (package [etcdgeneric]) *)

Module rest.

(** Modelled from the spec: a creation, update or deletion policy, of which
    the update part says what an update keeps of the stored object and what
    it refuses. *)
Record RESTStrategy := mkStrategy {
  PrepareForUpdate : Pod → Pod → Pod;
  ValidateUpdate : Pod → Pod → list fielderrors.ValidationError
}.

End rest.

Module etcdgeneric.

(** Modelled from the spec: the key scheme of the record accessor, which is
    not part of the sources. The root key of a scope is the key prefix of all
    the records of the scope. *)
Definition NamespaceKeyRootFunc (ctx : Context) (prefix : string) : string :=
  match ctx with
  | Some ns => if bool_decide (ns = "") then prefix else prefix +:+ "/" +:+ ns
  | None => prefix
  end.

(** Modelled from the spec: the key of one record, which is not part of the
    sources. It fails with InvalidIdentifier, a bad request, if the name is
    empty or contains characters illegal for the key scheme, which [illegal]
    tells. *)
Definition NamespaceKeyFunc (illegal : ascii → bool) (ctx : Context) (prefix name : string)
    : result string :=
  if bool_decide (name = "") || existsb illegal (list_ascii_of_string name)
  then Err (NewBadRequest "InvalidIdentifier")
  else Ok (NamespaceKeyRootFunc ctx prefix +:+ "/" +:+ name).

(** The registry structure; the fields for listing and watching
    ([NewListFunc], [PredicateFunc]) are left out. *)
Record Etcd := mkEtcd {
  NewFunc : unit → Pod;
  KeyRootFunc : Context → string;
  KeyFunc : Context → string → result string;
  ObjectNameFunc : Pod → result string;
  EndpointName : string;
  CreateStrategy : option rest.RESTStrategy;
  UpdateStrategy : option rest.RESTStrategy;
  AfterUpdate : option (Pod → option error);
  DeleteStrategy : option rest.RESTStrategy;
  ReturnDeletedObject : bool;
  AfterDelete : option (Pod → option error);
  Helper : tools.EtcdHelper
}.

Definition withCreateStrategy (e : Etcd) (x : rest.RESTStrategy) : Etcd :=
  mkEtcd (NewFunc e) (KeyRootFunc e) (KeyFunc e) (ObjectNameFunc e) (EndpointName e)
    (Some x) (UpdateStrategy e) (AfterUpdate e) (DeleteStrategy e)
    (ReturnDeletedObject e) (AfterDelete e) (Helper e).

Definition withUpdateStrategy (e : Etcd) (x : rest.RESTStrategy) : Etcd :=
  mkEtcd (NewFunc e) (KeyRootFunc e) (KeyFunc e) (ObjectNameFunc e) (EndpointName e)
    (CreateStrategy e) (Some x) (AfterUpdate e) (DeleteStrategy e)
    (ReturnDeletedObject e) (AfterDelete e) (Helper e).

Definition withAfterUpdate (e : Etcd) (x : Pod → option error) : Etcd :=
  mkEtcd (NewFunc e) (KeyRootFunc e) (KeyFunc e) (ObjectNameFunc e) (EndpointName e)
    (CreateStrategy e) (UpdateStrategy e) (Some x) (DeleteStrategy e)
    (ReturnDeletedObject e) (AfterDelete e) (Helper e).

Definition withDeleteStrategy (e : Etcd) (x : rest.RESTStrategy) : Etcd :=
  mkEtcd (NewFunc e) (KeyRootFunc e) (KeyFunc e) (ObjectNameFunc e) (EndpointName e)
    (CreateStrategy e) (UpdateStrategy e) (AfterUpdate e) (Some x)
    (ReturnDeletedObject e) (AfterDelete e) (Helper e).

Definition withReturnDeletedObject (e : Etcd) (x : bool) : Etcd :=
  mkEtcd (NewFunc e) (KeyRootFunc e) (KeyFunc e) (ObjectNameFunc e) (EndpointName e)
    (CreateStrategy e) (UpdateStrategy e) (AfterUpdate e) (DeleteStrategy e)
    x (AfterDelete e) (Helper e).

Definition withAfterDelete (e : Etcd) (x : Pod → option error) : Etcd :=
  mkEtcd (NewFunc e) (KeyRootFunc e) (KeyFunc e) (ObjectNameFunc e) (EndpointName e)
    (CreateStrategy e) (UpdateStrategy e) (AfterUpdate e) (DeleteStrategy e)
    (ReturnDeletedObject e) (Some x) (Helper e).

(** Modelled from the spec: the mutation function of [Update], which
    replaces the stored object by the caller's, prepared and validated by the
    update policy. The captured variable is the object handed to the
    store. *)
Definition updateFunc (e : Etcd) (obj : Pod) : tools.EtcdUpdateFunc (option Pod) :=
  λ existing out,
    match UpdateStrategy e with
    | None => ret (Some obj, Ok (obj, 0))
    | Some strategy =>
      let obj' := rest.PrepareForUpdate strategy obj existing in
      match rest.ValidateUpdate strategy obj' existing with
      | [] => ret (Some obj', Ok (obj', 0))
      | errs =>
        ret (out, Err (NewInvalid (EndpointName e) (ObjectMeta.Name (PodMeta obj)) errs))
      end
    end.

(** Modelled from the spec: the update of the generic registry, which is not
    part of the sources. It accepts a full record payload, derives the key of
    the record from its name, and replaces the stored record atomically by
    the payload as the update policy prepares it; it returns the updated
    record, and runs the post-update hook after a successful update. *)
Definition Update (e : Etcd) (ctx : Context) (obj : Pod) (s : etcd.t)
    : etcd.t * go (option Pod * bool * option error) :=
  match ObjectNameFunc e obj with
  | Err err => (s, ret (None, false, Some err))
  | Ok name =>
    match KeyFunc e ctx name with
    | Err err => (s, ret (None, false, Some err))
    | Ok key =>
      let '(s', r) := tools.AtomicUpdate (Helper e) key false (updateFunc e obj) None s in
      (s', '(out, err) ← r;
           match err with
           | Some err =>
             let err := etcderr.InterpretGetError err (EndpointName e) name in
             ret (None, false,
                  Some (etcderr.InterpretUpdateError err (EndpointName e) name))
           | None =>
             match AfterUpdate e, out with
             | Some hook, Some o =>
               match hook o with
               | Some err => ret (None, false, Some err)
               | None => ret (out, false, None)
               end
             | _, _ => ret (out, false, None)
             end
           end)
    end
  end.

End etcdgeneric.

(** ** Pod policies (package [pod]) *)

Module pod.

Section Strategies.

(** What the validation pipeline, which is outside this development, refuses
    in an update of a pod and in an update of its status. *)
Variable ValidatePodUpdate : Pod → Pod → list fielderrors.ValidationError.
Variable ValidatePodStatusUpdate : Pod → Pod → list fielderrors.ValidationError.

(** The policy of the primary surface, supplied from outside. *)
Definition Strategy : rest.RESTStrategy :=
  rest.mkStrategy (λ newPod oldPod, newPod) ValidatePodUpdate.

(** Modelled from the spec: the policy of the status surface, which is not
    part of the sources. It accepts changes to status-only fields: the spec
    fields are preserved from the existing record regardless of what the
    caller supplies. *)
Definition StatusStrategy : rest.RESTStrategy :=
  rest.mkStrategy (λ newPod oldPod, setSpec newPod (Spec oldPod)) ValidatePodStatusUpdate.

End Strategies.

End pod.

(** ** The pod storage *)

(** [BindingREST] implements the endpoint for binding pods to nodes. *)
Module BindingREST.

Record t := mk {
  store : etcdgeneric.Etcd
}.

(** The text of the rejection of a pod that has a host already. *)
Definition alreadyAssigned (pod : Pod) : string :=
  "pod " +:+ ObjectMeta.Name (PodMeta pod) +:+ " is already assigned to host "
    +:+ quote (PodSpec.Host (Spec pod)) +:+ " or " +:+ quote (PodStatus.Host (Status pod)).

(** The loop that merges the annotations of the request into the pod. *)
Definition mergeAnnotations (annotations : gomap) (pod : Pod) : go Pod :=
  maprange annotations
    (λ k v acc,
       pod ← acc;
       a ← mapassign (ObjectMeta.Annotations (PodMeta pod)) k v;
       ret (setAnnotations pod a))
    (ret pod).

(** The update function that [setPodHostAndAnnotations] hands to
    [AtomicUpdate]; the captured variable is [finalPod]. The object is the
    pod that [AtomicUpdate] decoded, so that the type assertion at its head
    holds. *)
Definition tryUpdate (oldMachine machine : string) (annotations : gomap)
    : tools.EtcdUpdateFunc (option Pod) :=
  λ pod finalPod,
    if bool_decide (PodSpec.Host (Spec pod) ≠ oldMachine)
       || bool_decide (PodStatus.Host (Status pod) ≠ oldMachine)
    then ret (finalPod, Err (Errorf (alreadyAssigned pod)))
    else
      let pod := setSpecHost pod machine in
      let pod := setStatusHost pod machine in
      let pod :=
        match ObjectMeta.Annotations (PodMeta pod) with
        | None => setAnnotations pod make_map
        | Some _ => pod
        end in
      pod ← mergeAnnotations annotations pod;
      ret (Some pod, Ok (pod, 0)).

(** [setPodHostAndAnnotations] sets the host of the pod to [machine] iff it
    was [oldMachine] before, and merges the annotations into those of the
    pod. It returns [finalPod] and the error. *)
Definition setPodHostAndAnnotations (r : t) (ctx : Context)
    (podID oldMachine machine : string) (annotations : gomap) (s : etcd.t)
    : etcd.t * go (option Pod * option error) :=
  match etcdgeneric.KeyFunc (store r) ctx podID with
  | Err err => (s, ret (None, Some err))
  | Ok podKey =>
    tools.AtomicUpdate (etcdgeneric.Helper (store r)) podKey false
      (tryUpdate oldMachine machine annotations) None s
  end.

(** The translation of a failure of [setPodHostAndAnnotations] in
    [assignPod]. *)
Definition interpret (podID : string) (err : error) : error :=
  let err := etcderr.InterpretGetError err "pod" podID in
  let err := etcderr.InterpretUpdateError err "pod" podID in
  if isStatusError err then err else NewConflict "binding" podID err.

(** [assignPod] assigns the given pod to the given machine. *)
Definition assignPod (r : t) (ctx : Context) (podID machine : string)
    (annotations : gomap) (s : etcd.t) : etcd.t * go (option error) :=
  let '(s', res) := setPodHostAndAnnotations r ctx podID "" machine annotations s in
  (s', '(_, err) ← res;
       ret (match err with
            | Some err => Some (interpret podID err)
            | None => None
            end)).

(** The two checks at the head of [Create]; [None] when the binding passes. *)
Definition validate (binding : Binding) : option error :=
  let kind := ObjectReference.Kind (Target binding) in
  let name := ObjectMeta.Name (BindingMeta binding) in
  if negb (String.length kind =? 0)%nat
     && (bool_decide (kind ≠ "Node") && bool_decide (kind ≠ "Minion"))
  then Some (NewInvalid "binding" name
               [fielderrors.NewFieldInvalid "to.kind" kind
                  "must be empty, 'Node', or 'Minion'"])
  else if (String.length (ObjectReference.Name (Target binding)) =? 0)%nat
  then Some (NewInvalid "binding" name [fielderrors.NewFieldRequired "to.name"])
  else None.

(** [Create] ensures a pod is bound to a specific host. It returns the pair
    [(out, err)]. *)
Definition Create (r : t) (ctx : Context) (binding : Binding) (s : etcd.t)
    : etcd.t * go (option ApiStatus * option error) :=
  match validate binding with
  | Some err => (s, ret (None, Some err))
  | None =>
    let '(s', res) :=
      assignPod r ctx (ObjectMeta.Name (BindingMeta binding))
        (ObjectReference.Name (Target binding))
        (ObjectMeta.Annotations (BindingMeta binding)) s in
    (s', err ← res; ret (Some (mkStatus StatusSuccess), err))
  end.

End BindingREST.

(** The hooks of the pod life cycle. *)
Module podLifecycle.

Definition AfterUpdate (obj : Pod) : option error := None.
Definition AfterDelete (obj : Pod) : option error := None.

End podLifecycle.

(** [StatusREST] implements the endpoint for changing the status of a pod. *)
Module StatusREST.

Record t := mk {
  store : etcdgeneric.Etcd
}.

(** [Update] alters the status subset of an object. *)
Definition Update (r : t) (ctx : Context) (obj : Pod) (s : etcd.t)
    : etcd.t * go (option Pod * bool * option error) :=
  etcdgeneric.Update (store r) ctx obj s.

End StatusREST.

(** [LogREST] and [ProxyREST]: the capabilities they declare. *)
Module LogREST.

Record t := mk {
  store : etcdgeneric.Etcd
}.

Definition ProxyMethods (r : t) : list string := ["GET"].
Definition SupportsUpgrade (r : t) : bool := false.

End LogREST.

Module ProxyREST.

Record t := mk {
  store : etcdgeneric.Etcd
}.

Definition ProxyMethods (r : t) : list string :=
  ["GET"; "PUT"; "POST"; "DELETE"; "HEAD"; "OPTIONS"].
Definition SupportsUpgrade (r : t) : bool := true.

End ProxyREST.

(** [PodStorage] contains all pod storage objects. *)
Record PodStorage := mkPodStorage {
  PodREST : etcdgeneric.Etcd;
  BindingStorage : BindingREST.t;
  StatusStorage : StatusREST.t;
  LogStorage : LogREST.t;
  ProxyStorage : ProxyREST.t
}.

Section NewStorage.

(** The key scheme of the generic registry and the validation pipeline are
    supplied from outside. *)
Variable NamespaceKeyRootFunc : Context → string → string.
Variable NamespaceKeyFunc : Context → string → string → result string.
Variable ValidatePodUpdate : Pod → Pod → list fielderrors.ValidationError.
Variable ValidatePodStatusUpdate : Pod → Pod → list fielderrors.ValidationError.

(** [NewStorage] returns the storage objects that work against pods. The
    status store is a copy of the store taken before the policies and hooks of
    the primary surface are set. *)
Definition NewStorage (h : tools.EtcdHelper) : PodStorage :=
  let prefix := "/registry/pods" in
  let store :=
    etcdgeneric.mkEtcd
      (λ _, emptyPod)
      (λ ctx, NamespaceKeyRootFunc ctx prefix)
      (λ ctx name, NamespaceKeyFunc ctx prefix name)
      (λ obj, Ok (ObjectMeta.Name (PodMeta obj)))
      "pods"
      None None None None false None
      h in
  let statusStore := store in
  let store := etcdgeneric.withCreateStrategy store (pod.Strategy ValidatePodUpdate) in
  let store := etcdgeneric.withUpdateStrategy store (pod.Strategy ValidatePodUpdate) in
  let store := etcdgeneric.withAfterUpdate store podLifecycle.AfterUpdate in
  let store := etcdgeneric.withDeleteStrategy store (pod.Strategy ValidatePodUpdate) in
  let store := etcdgeneric.withReturnDeletedObject store true in
  let store := etcdgeneric.withAfterDelete store podLifecycle.AfterDelete in
  let statusStore :=
    etcdgeneric.withUpdateStrategy statusStore (pod.StatusStrategy ValidatePodStatusUpdate) in
  mkPodStorage store (BindingREST.mk store) (StatusREST.mk statusStore)
    (LogREST.mk store) (ProxyREST.mk store).

End NewStorage.

(** ** Concurrent callers *)

(** [AtomicUpdate] as the sequence of requests one caller sends to the store:
    between two of them any other caller may run. *)
Module thread.

(** Modelled from the spec: where a caller of [AtomicUpdate] stands. It is
    [Ready] to read the record, has [Fetched] it and is about to apply the
    mutation function and write back, or is done. *)
Inductive pc :=
  | Ready
  | Fetched (obj : Pod) (index : Z)
  | Returned (err : option error)
  | Panicked (msg : string).

(** The caller: the retries left, the variable the mutation function closes
    over, and where it stands. *)
Record t (C : Type) := mk {
  retries : nat;
  captured : C;
  at_ : pc
}.
Arguments mk {C} retries captured at_.
Arguments retries {C} _.
Arguments captured {C} _.
Arguments at_ {C} _.

(** What the call returned, once it is over. *)
Definition outcome {C : Type} (th : t C) : option (go (C * option error)) :=
  match at_ th with
  | Returned err => Some (ret (captured th, err))
  | Panicked msg => Some (panic msg)
  | Ready | Fetched _ _ => None
  end.

(** Modelled from the spec: one request of the caller of [AtomicUpdate] to
    the store, with the computation up to the next one; the steps are those
    of [tools.atomicUpdate]. *)
Definition step {C : Type} (key : string) (ignoreNotFound : bool)
    (tryUpdate : tools.EtcdUpdateFunc C) (s : etcd.t) (th : t C) : etcd.t * t C :=
  match at_ th with
  | Ready =>
    let '(s1, r) := etcd.Get key s in
    match tools.bodyAndExtractObj ignoreNotFound r with
    | Err e => (s1, mk (retries th) (captured th) (Returned (Some e)))
    | Ok (obj, index) => (s1, mk (retries th) (captured th) (Fetched obj index))
    end
  | Fetched obj index =>
    match tryUpdate obj (captured th) with
    | panic msg => (s, mk (retries th) (captured th) (Panicked msg))
    | ret (c1, Err e) => (s, mk (retries th) c1 (Returned (Some e)))
    | ret (c1, Ok (o, _)) =>
      let '(s2, w) := tools.writeBack key o index s in
      match w with
      | Ok _ => (s2, mk (retries th) c1 (Returned None))
      | Err e =>
        if tools.raced index e then
          match retries th with
          | O => (s2, mk O c1 (Returned (Some e)))
          | S n' => (s2, mk n' c1 Ready)
          end
        else (s2, mk (retries th) c1 (Returned (Some e)))
      end
    end
  | Returned _ | Panicked _ => (s, th)
  end.

(** The caller running with nobody in between. *)
Fixpoint alone {C : Type} (fuel : nat) (key : string) (ignoreNotFound : bool)
    (tryUpdate : tools.EtcdUpdateFunc C) (s : etcd.t) (th : t C) : etcd.t * t C :=
  match fuel with
  | O => (s, th)
  | S fuel' =>
    let '(s', th') := step key ignoreNotFound tryUpdate s th in
    alone fuel' key ignoreNotFound tryUpdate s' th'
  end.

End thread.

(** Calls of [BindingREST.Create] in flight against one store. *)
Module bindings.

Inductive call :=
  | Finished (res : go (option ApiStatus * option error))
  | InAtomicUpdate (podID podKey machine : string) (annotations : gomap)
      (th : thread.t (option Pod)).

(** [Create] up to its first request to the store. *)
Definition begin (r : BindingREST.t) (ctx : Context) (binding : Binding) : call :=
  match BindingREST.validate binding with
  | Some err => Finished (ret (None, Some err))
  | None =>
    let podID := ObjectMeta.Name (BindingMeta binding) in
    match etcdgeneric.KeyFunc (BindingREST.store r) ctx podID with
    | Err err =>
      Finished (ret (Some (mkStatus StatusSuccess), Some (BindingREST.interpret podID err)))
    | Ok podKey =>
      InAtomicUpdate podID podKey (ObjectReference.Name (Target binding))
        (ObjectMeta.Annotations (BindingMeta binding))
        (thread.mk (tools.Retries (etcdgeneric.Helper (BindingREST.store r))) None thread.Ready)
    end
  end.

(** What [assignPod] and [Create] make of the outcome of [AtomicUpdate]. *)
Definition finish (podID : string) (res : go (option Pod * option error))
    : go (option ApiStatus * option error) :=
  '(_, err) ← res;
  ret (Some (mkStatus StatusSuccess),
       match err with
       | Some err => Some (BindingREST.interpret podID err)
       | None => None
       end).

Definition stepCall (s : etcd.t) (c : call) : etcd.t * call :=
  match c with
  | Finished _ => (s, c)
  | InAtomicUpdate podID podKey machine annotations th =>
    let '(s', th') :=
      thread.step podKey false (BindingREST.tryUpdate "" machine annotations) s th in
    (s', match thread.outcome th' with
         | Some res => Finished (finish podID res)
         | None => InAtomicUpdate podID podKey machine annotations th'
         end)
  end.

(** The store and the calls in flight. *)
Definition config : Type := etcd.t * list call.

(** The call at position [i] takes its next step. *)
Definition stepAt (i : nat) (cfg : config) : config :=
  match cfg.2 !! i with
  | None => cfg
  | Some c => let '(s', c') := stepCall cfg.1 c in (s', <[i := c']> cfg.2)
  end.

(** An interleaving: the positions of the calls that step, in order. *)
Definition run (sched : list nat) (cfg : config) : config :=
  foldl (λ cfg i, stepAt i cfg) cfg sched.



(** The error a finished call returned. *)
Definition errorOf (c : call) : option (option error) :=
  match c with
  | Finished (ret (_, err)) => Some err
  | _ => None
  end.




End bindings.

(** The store keeps its versions in order: every value carries a positive
    version that the counter has reached. *)
Definition wf (s : etcd.t) : Prop :=
  0 ≤ etcd.index s
  ∧ ∀ key n, etcd.nodes s !! key = Some n →
      0 < etcd.ModifiedIndex n ∧ etcd.ModifiedIndex n ≤ etcd.index s.

(** A pod that has no host. *)
Definition unassigned (pod : Pod) : Prop :=
  PodSpec.Host (Spec pod) = "" ∧ PodStatus.Host (Status pod) = "".

#[global] Instance unassigned_dec (pod : Pod) : Decision (unassigned pod) :=
  ltac:(unfold unassigned; apply _).

(** The annotations of a binding, read as a map. *)
Definition entries (m : gomap) : gmap string string := default ∅ m.

(** The pod a successful binding stores. *)
Definition bound (pod : Pod) (machine : string) (annotations : gomap) : Pod :=
  setAnnotations (setStatusHost (setSpecHost pod machine) machine)
    (Some (entries annotations ∪ entries (ObjectMeta.Annotations (PodMeta pod)))).

(** The kinds of target a binding may name. *)
Definition recognizedKind (kind : string) : Prop :=
  kind = "" ∨ kind = "Node" ∨ kind = "Minion".

(** ** A pod storage and a few records, for the examples *)

Module example.

Definition illegal (c : ascii) : bool := bool_decide (c = "/"%char).

Definition accept (newPod oldPod : Pod) : list fielderrors.ValidationError := [].

Definition storage : PodStorage :=
  NewStorage etcdgeneric.NamespaceKeyRootFunc (etcdgeneric.NamespaceKeyFunc illegal)
    accept accept (tools.mkHelper 2).

(** The same storage with a helper that never tries again. *)
Definition storageNoRetry : PodStorage :=
  NewStorage etcdgeneric.NamespaceKeyRootFunc (etcdgeneric.NamespaceKeyFunc illegal)
    accept accept (tools.mkHelper 0).

Definition ctx : Context := Some "default".

Definition key : string := "/registry/pods/default/web".

(** A pod without a host, with one annotation. *)
Definition web : Pod :=
  mkPod (ObjectMeta.mk "web" "default" (Some {["b" := "2"]}))
        (PodSpec.mk "Always" "ClusterFirst" "")
        (PodStatus.mk "Pending" "" "" "" "").

(** The same pod with no annotation map. *)
Definition bare : Pod :=
  mkPod (ObjectMeta.mk "web" "default" None)
        (PodSpec.mk "Always" "ClusterFirst" "")
        (PodStatus.mk "Pending" "" "" "" "").

(** The same pod on the host node-1. *)
Definition placed : Pod :=
  mkPod (ObjectMeta.mk "web" "default" (Some {["b" := "2"]}))
        (PodSpec.mk "Always" "ClusterFirst" "node-1")
        (PodStatus.mk "Pending" "" "node-1" "" "").

(** A store that holds one pod. *)
Definition holding (pod : Pod) : etcd.t :=
  etcd.mk {[key := etcd.mkNode pod 4]} 7 None [].

(** The same store during an outage. *)
Definition unreachable (pod : Pod) (e : error) : etcd.t :=
  etcd.mk {[key := etcd.mkNode pod 4]} 7 (Some (etcd.unreachable e)) [].

(** A failure that strikes the writes: the store carries out a
    compare-and-swap, and the reply is lost. *)
Definition lostWrite (e : error) : etcd.fault :=
  etcd.mkFault (λ q, match q with etcd.CompareAndSwapReq _ _ => true | _ => false end)
    true e.

(** The same store while the replies to its writes are lost. *)
Definition timingOut (pod : Pod) (e : error) : etcd.t :=
  etcd.mk {[key := etcd.mkNode pod 4]} 7 (Some (lostWrite e)) [].

Definition timeout : error := Errorf "etcd: request timed out".

Definition bindTo (name kind machine : string) (annotations : gomap) : Binding :=
  mkBinding (ObjectMeta.mk name "default" annotations) (ObjectReference.mk kind machine).

(** A status update that carries a spec of its own. *)
Definition running : Pod :=
  mkPod (ObjectMeta.mk "web" "default" (Some {["b" := "2"]}))
        (PodSpec.mk "Never" "Default" "node-9")
        (PodStatus.mk "Running" "started" "node-1" "10.0.0.1" "10.1.0.7").

End example.

(** Three binding requests for the pod, to three hosts. *)
Definition example_requests : list Binding :=
  [example.bindTo "web" "Node" "node-1" None;
   example.bindTo "web" "" "node-2" (Some {["a" := "1"]});
   example.bindTo "web" "Minion" "node-3" None].

(** An interleaving of the three calls in which the second one writes
    first. *)
Definition example_schedule : list nat :=
  [0; 1; 1; 0; 2; 0; 2; 0]%nat.

(** ** The invariant of concurrent bindings of one pod *)

Module race.











End race.

(** ** A writer that flushes (package [flushwriter]) *)

Module flushwriter.

(** An [io.Writer] whose state is a [W]: what [Write] returns and how it moves
    the state, and [Flush] when the writer is an [http.Flusher] as well. *)
Record Writer (W : Type) := mkWriter {
  Write : list Byte.byte → W → W * (Z * option error);
  Flush : option (W → W)
}.
Arguments mkWriter {W} Write Flush.
Arguments Write {W} _ _ _.
Arguments Flush {W} _.

(** [flushWriter] wraps a writer with the flusher it may be. *)
Record flushWriter (W : Type) := mk {
  flusher : option (W → W);
  writer : Writer W
}.
Arguments mk {W} flusher writer.
Arguments flusher {W} _.
Arguments writer {W} _.

(** [Write] of the [flushWriter]: write, and after a write without error
    flush, when there is a flusher. *)
Definition fwWrite {W : Type} (fw : flushWriter W) (p : list Byte.byte) (st : W)
    : W * (Z * option error) :=
  let '(st, (n, err)) := Write (writer fw) p st in
  match err with
  | Some _ => (st, (n, err))
  | None =>
    match flusher fw with
    | Some flush => (flush st, (n, err))
    | None => (st, (n, err))
    end
  end.

(** The [flushWriter] as the [io.Writer] it is returned as: it has [Write]
    and no [Flush]. *)
Definition asWriter {W : Type} (fw : flushWriter W) : Writer W :=
  mkWriter (fwWrite fw) None.

(** [New] wraps a writer into one that flushes after every write if the
    writer implements the flusher interface. *)
Definition New {W : Type} (w : Writer W) : Writer W :=
  let fw := mk None w in
  let fw :=
    match Flush w with
    | Some flusher => mk (Some flusher) (writer fw)
    | None => fw
    end in
  asWriter fw.

(** Calls of [Write], one after the other, with what each returns. *)
Fixpoint writes {W : Type} (w : Writer W) (ps : list (list Byte.byte)) (st : W)
    : W * list (Z * option error) :=
  match ps with
  | [] => (st, [])
  | p :: ps' =>
    let '(st1, r) := Write w p st in
    let '(st2, rs) := writes w ps' st1 in
    (st2, r :: rs)
  end.

(** What a writer is asked to do. *)
Inductive event :=
  | Written (p : list Byte.byte) (n : Z) (err : option error)
  | Flushed.

(** A writer that keeps the trace of what it is asked to do. *)
Definition observed {W : Type} (w : Writer W) : Writer (W * list event) :=
  mkWriter
    (λ p (x : W * list event),
       let '(st1, (n, err)) := Write w p x.1 in
       ((st1, (x.2 ++ [Written p n err])%list), (n, err)))
    (match Flush w with
     | Some flush => Some (λ x : W * list event, (flush x.1, (x.2 ++ [Flushed])%list))
     | None => None
     end).

(** The trace that writes with the results [rs] leave on a writer wrapped by
    [New]. *)
Fixpoint traceOf (flushes : bool) (ps : list (list Byte.byte)) (rs : list (Z * option error))
    : list event :=
  match ps, rs with
  | p :: ps', (n, err) :: rs' =>
    (Written p n err
       :: (if flushes && bool_decide (err = None) then [Flushed] else [])
       ++ traceOf flushes ps' rs')%list
  | _, _ => []
  end.

End flushwriter.

(** ** The controller manager patch (package [app]) *)

Module app.

(** A value that [json.Unmarshal] stores in an [interface{}]; of a number
    only its text is kept. *)
#[local] Set Warnings "-register-all".
Inductive json :=
  | JNull
  | JBool (b : bool)
  | JNumber (text : string)
  | JString (s : string)
  | JArray (l : list json)
  | JObject (m : gmap string json).
#[local] Set Warnings "+register-all".

(** The fields of the OpenShift context that the patch reads and writes. *)
Record OpenShiftContext := mkContext {
  OpenShiftConfig : string;
  OpenShiftDefaultProjectNodeSelector : string
}.

Module options.

Record KubeControllerManagerOptions := mk {
  OpenShiftContext : OpenShiftContext
}.

End options.

Module config.

Record Config (Kubeconfig : Type) := mk {
  OpenShiftContext : OpenShiftContext;
  Kubeconfig_ : Kubeconfig
}.
Arguments mk {Kubeconfig} OpenShiftContext Kubeconfig_.
Arguments OpenShiftContext {Kubeconfig} _.
Arguments Kubeconfig_ {Kubeconfig} _.

End config.

(** [applyOpenShiftConfigDefaultProjectSelector]: the two type assertions
    panic on a value of another type. *)
Definition applyOpenShiftConfigDefaultProjectSelector
    (controllerManagerOptions : options.KubeControllerManagerOptions)
    (openshiftConfig : gmap string json)
    : go (options.KubeControllerManagerOptions * option error) :=
  match openshiftConfig !! "projectConfig" with
  | None => ret (controllerManagerOptions, None)
  | Some projectConfig =>
    match projectConfig with
    | JObject castProjectConfig =>
      match castProjectConfig !! "defaultNodeSelector" with
      | None => ret (controllerManagerOptions, None)
      | Some defaultNodeSelector =>
        match defaultNodeSelector with
        | JString s =>
          ret (options.mk
                 (mkContext
                    (OpenShiftConfig (options.OpenShiftContext controllerManagerOptions))
                    s),
               None)
        | _ => panic "interface conversion: interface {} is not string"
        end
      end
    | _ => panic "interface conversion: interface {} is not map[string]interface {}"
    end
  end.

Section Shim.

(** What the patch calls and the sources do not hold: the file system, the
    two decoders, [path.Dir], the two other steps, which may change the
    controller manager and a state [World] of their own, and the informer
    factory. *)
Variables (World Kubeconfig Informers : Type).
Variable ReadFile : string → result (list Byte.byte).
Variable ToJSON : list Byte.byte → result (list Byte.byte).
Variable Unmarshal : list Byte.byte → result (gmap string json).
Variable Dir : string → string.
Variable applyOpenShiftServiceServingCertCAFunc :
  string → gmap string json → World → World * option error.
Variable applyOpenShiftGCConfig :
  config.Config Kubeconfig → World → config.Config Kubeconfig * World * option error.
Variable newInformerFactory : Kubeconfig → result Informers.

(** [getOpenShiftConfig] reads the file and decodes it. *)
Definition getOpenShiftConfig (configFile : string) : result (gmap string json) :=
  match ReadFile configFile with
  | Err err => Err err
  | Ok configBytes =>
    match ToJSON configBytes with
    | Err err => Err err
    | Ok jsonBytes =>
      match Unmarshal jsonBytes with
      | Err err => Err err
      | Ok config => Ok config
      end
    end
  end.

(** What [ShimForOpenShift] works on: the options and the configuration of
    the controller manager, the variable [InformerFactoryOverride], and the
    state of the rest. *)
Record state := mkState {
  controllerManagerOptions : options.KubeControllerManagerOptions;
  controllerManager : config.Config Kubeconfig;
  InformerFactoryOverride : option Informers;
  world : World
}.

Definition ShimForOpenShift (st : state) : go (state * option error) :=
  let configFile := OpenShiftConfig (config.OpenShiftContext (controllerManager st)) in
  if (String.length configFile =? 0)%nat then ret (st, None)
  else
    match getOpenShiftConfig configFile with
    | Err err => ret (st, Some err)
    | Ok openshiftConfig =>
      let '(w1, err) :=
        applyOpenShiftServiceServingCertCAFunc (Dir configFile) openshiftConfig (world st) in
      let st :=
        mkState (controllerManagerOptions st) (controllerManager st)
          (InformerFactoryOverride st) w1 in
      match err with
      | Some err => ret (st, Some err)
      | None =>
        let '(cm, w2, err) := applyOpenShiftGCConfig (controllerManager st) (world st) in
        let st :=
          mkState (controllerManagerOptions st) cm (InformerFactoryOverride st) w2 in
        match err with
        | Some err => ret (st, Some err)
        | None =>
          '(options, err) ←
            applyOpenShiftConfigDefaultProjectSelector (controllerManagerOptions st)
              openshiftConfig;
          let st :=
            mkState options (controllerManager st) (InformerFactoryOverride st)
              (world st) in
          match err with
          | Some err => ret (st, Some err)
          | None =>
            match newInformerFactory (config.Kubeconfig_ (controllerManager st)) with
            | Err err => ret (st, Some err)
            | Ok informers =>
              ret (mkState (controllerManagerOptions st) (controllerManager st)
                     (Some informers) (world st), None)
            end
          end
        end
      end
    end.

End Shim.

End app.

(** Whether a writer is an [http.Flusher]. *)
Definition isFlusher {W : Type} (w : flushwriter.Writer W) : bool :=
  match flushwriter.Flush w with
  | Some _ => true
  | None => false
  end.

(** ** Writers and a configuration, for the examples *)

Module example2.

(** A writer that buffers what it is given, up to eight bytes, and sends the
    buffer on when it is flushed. The state is what was sent and what is
    pending. *)
Definition buffered : flushwriter.Writer (list Byte.byte * list Byte.byte) :=
  flushwriter.mkWriter
    (λ p st,
       if (length st.2 + length p <=? 8)%nat
       then ((st.1, (st.2 ++ p)%list), (Z.of_nat (length p), None))
       else (st, (0, Some (Errorf "short write"))))
    (Some (λ st, ((st.1 ++ st.2)%list, []))).

(** The same writer without [Flush]. *)
Definition unbuffered : flushwriter.Writer (list Byte.byte * list Byte.byte) :=
  flushwriter.mkWriter (flushwriter.Write buffered) None.

(** A configuration with a default node selector, and two that are
    malformed. *)
Definition configured : gmap string app.json :=
  {["projectConfig" := app.JObject {["defaultNodeSelector" := app.JString "region=east"]}]}.

Definition nullProject : gmap string app.json :=
  {["projectConfig" := app.JNull]}.

Definition numericSelector : gmap string app.json :=
  {["projectConfig" := app.JObject {["defaultNodeSelector" := app.JNumber "1"]}]}.

Definition options0 : app.options.KubeControllerManagerOptions :=
  app.options.mk (app.mkContext "" "").

(** A controller manager that is given a configuration file, with steps
    that succeed. *)
Definition shim (newInformerFactory : string → result string)
    (st : app.state unit string string) : go (app.state unit string string * option error) :=
  app.ShimForOpenShift unit string string
    (λ file, Ok []) (λ bytes, Ok bytes) (λ bytes, Ok configured) (λ file, "/etc")
    (λ dir config w, (w, None)) (λ cm w, (cm, w, None)) newInformerFactory st.

Definition manager : app.state unit string string :=
  app.mkState unit string string options0
    (app.config.mk (app.mkContext "/etc/master.yaml" "") "kubeconfig") None tt.

End example2.

(** * Properties *)

(** ** The mutation function *)

Lemma setAnnotations_same pod g :
  ObjectMeta.Annotations (PodMeta pod) = Some g → setAnnotations pod (Some g) = pod.
Proof. destruct pod as [[nm ns an] sp st]; simpl; intros ->; reflexivity. Qed.

(** The loop over the annotations of the request never writes to a nil map
    once the pod has a map, and leaves the union of the two maps, the request
    first. *)
Lemma mergeAnnotations_union annotations pod g :
  ObjectMeta.Annotations (PodMeta pod) = Some g →
  BindingREST.mergeAnnotations annotations pod
  = ret (setAnnotations pod (Some (entries annotations ∪ g))).
Proof.
  intros Hg. unfold BindingREST.mergeAnnotations, maprange.
  destruct annotations as [a|]; simpl.
  - apply (map_fold_weak_ind
             (λ (acc : go Pod) (m : gmap string string),
                acc = ret (setAnnotations pod (Some (m ∪ g))))).
    + rewrite (left_id_L ∅ (∪)). by rewrite (setAnnotations_same _ _ Hg).
    + intros k v m acc _ ->. simpl. by rewrite insert_union_l.
  - rewrite (left_id_L ∅ (∪)). by rewrite (setAnnotations_same _ _ Hg).
Qed.

(** On a pod without a host the mutation function returns the bound pod. *)
Lemma tryUpdate_unassigned machine annotations pod finalPod :
  unassigned pod →
  BindingREST.tryUpdate "" machine annotations pod finalPod
  = ret (Some (bound pod machine annotations), Ok (bound pod machine annotations, 0)).
Proof.
  intros [Hs Ht]. unfold BindingREST.tryUpdate.
  rewrite Hs, Ht. rewrite !bool_decide_eq_false_2 by (intros H; by apply H). simpl.
  destruct pod as [[nm ns [g|]] sp st]; simpl.
  - erewrite mergeAnnotations_union by reflexivity. reflexivity.
  - erewrite mergeAnnotations_union by reflexivity. reflexivity.
Qed.

(** On a pod with a host it rejects, and leaves [finalPod] alone. *)
Lemma tryUpdate_assigned machine annotations pod finalPod :
  ¬ unassigned pod →
  BindingREST.tryUpdate "" machine annotations pod finalPod
  = ret (finalPod, Err (Errorf (BindingREST.alreadyAssigned pod))).
Proof.
  intros Hna. unfold BindingREST.tryUpdate.
  destruct (decide (PodSpec.Host (Spec pod) = "")) as [Hs|Hs];
    destruct (decide (PodStatus.Host (Status pod) = "")) as [Ht|Ht].
  - destruct Hna. by split.
  - rewrite (bool_decide_eq_true_2 (PodStatus.Host (Status pod) ≠ "")) by done.
    by rewrite orb_true_r.
  - by rewrite (bool_decide_eq_true_2 (PodSpec.Host (Spec pod) ≠ "")) by done.
  - by rewrite (bool_decide_eq_true_2 (PodSpec.Host (Spec pod) ≠ "")) by done.
Qed.

Lemma bound_assigned pod machine annotations :
  machine ≠ "" → ¬ unassigned (bound pod machine annotations).
Proof. intros Hm [Hs _]. by apply Hm. Qed.

(** ** The store *)

Lemma Get_found key s n :
  etcd.outage s = None → etcd.nodes s !! key = Some n →
  etcd.Get key s = (etcd.received (etcd.GetReq key) s, Ok n).
Proof. intros Ho Hn. unfold etcd.Get, etcd.struck. simpl. by rewrite Ho, Hn. Qed.

Lemma Get_missing key s :
  etcd.outage s = None → etcd.nodes s !! key = None →
  etcd.Get key s
  = (etcd.received (etcd.GetReq key) s, Err (EtcdError etcd.EcodeKeyNotFound "Key not found")).
Proof. intros Ho Hn. unfold etcd.Get, etcd.struck. simpl. by rewrite Ho, Hn. Qed.

(** A read that is struck by a failure fails with its error. *)
Lemma Get_struck key s f :
  etcd.struck (etcd.GetReq key) s = Some f →
  etcd.Get key s = (etcd.received (etcd.GetReq key) s, Err (etcd.reply f)).
Proof.
  intros Ho. unfold etcd.Get.
  change (etcd.struck (etcd.GetReq key) (etcd.received (etcd.GetReq key) s))
    with (etcd.struck (etcd.GetReq key) s).
  by rewrite Ho.
Qed.

Lemma struck_None q s : etcd.outage s = None → etcd.struck q s = None.
Proof. intros Ho. unfold etcd.struck. by rewrite Ho. Qed.

Lemma struck_unreachable q s e :
  etcd.outage s = Some (etcd.unreachable e) → etcd.struck q s = Some (etcd.unreachable e).
Proof. intros Ho. unfold etcd.struck. by rewrite Ho. Qed.

(** A read that no failure strikes is answered. *)
Lemma Get_answered key s n :
  etcd.struck (etcd.GetReq key) s = None → etcd.nodes s !! key = Some n →
  etcd.Get key s = (etcd.received (etcd.GetReq key) s, Ok n).
Proof.
  intros Ho Hn. unfold etcd.Get.
  change (etcd.struck (etcd.GetReq key) (etcd.received (etcd.GetReq key) s))
    with (etcd.struck (etcd.GetReq key) s).
  rewrite Ho. simpl. by rewrite Hn.
Qed.

(** A write that is struck by a failure fails with its error, carried out or
    not. *)
Lemma writeBack_struck key o i s f :
  i ≠ 0 → etcd.struck (etcd.CompareAndSwapReq key i) s = Some f →
  ∃ s2, tools.writeBack key o i s = (s2, Err (etcd.reply f)).
Proof.
  intros Hi Ho. unfold tools.writeBack.
  destruct (Z.eqb_spec i 0) as [?|_]; [done|]. unfold etcd.CompareAndSwap.
  change (etcd.struck (etcd.CompareAndSwapReq key i)
            (etcd.received (etcd.CompareAndSwapReq key i) s))
    with (etcd.struck (etcd.CompareAndSwapReq key i) s).
  rewrite Ho. unfold etcd.lostReply. destruct (etcd.carriedOut f); by eexists.
Qed.

(** A write against the stored version goes through. *)
Lemma writeBack_current key o s n :
  etcd.outage s = None → etcd.nodes s !! key = Some n → 0 < etcd.ModifiedIndex n →
  tools.writeBack key o (etcd.ModifiedIndex n) s
  = (etcd.mk (<[key := etcd.mkNode o (etcd.index s + 1)]> (etcd.nodes s))
       (etcd.index s + 1) None
       (etcd.requests s ++ [etcd.CompareAndSwapReq key (etcd.ModifiedIndex n)]),
     Ok (etcd.mkNode o (etcd.index s + 1))).
Proof.
  intros Ho Hn Hpos. unfold tools.writeBack.
  destruct (Z.eqb_spec (etcd.ModifiedIndex n) 0) as [H0|_]; [lia|].
  unfold etcd.CompareAndSwap, etcd.struck. simpl. rewrite Ho, Hn, Z.eqb_refl. reflexivity.
Qed.



Lemma wf_stored s key v o rq :
  wf s →
  wf (etcd.mk (<[key := etcd.mkNode v (etcd.index s + 1)]> (etcd.nodes s))
        (etcd.index s + 1) o rq).
Proof.
  intros [H0 H]. split; [simpl; lia|]. intros k n. simpl. rewrite lookup_insert.
  case_decide as Hk.
  - intros [= <-]. simpl. lia.
  - intros Hn. destruct (H k n Hn). lia.
Qed.

Lemma wf_single key v i idx o rq :
  0 < i → i ≤ idx → wf (etcd.mk {[key := etcd.mkNode v i]} idx o rq).
Proof.
  intros H1 H2. split; [simpl; lia|].
  intros k n. simpl. intros [_ <-]%lookup_singleton_Some. simpl. lia.
Qed.

(** Every request keeps the versions of the store in order. *)
Lemma wf_Get key s : wf s → wf (etcd.Get key s).1.
Proof.
  intros H. unfold etcd.Get. simpl.
  destruct (etcd.struck _ _); [done|]. by destruct (etcd.nodes s !! key).
Qed.

Lemma wf_Create key v s : wf s → wf (etcd.Create key v s).1.
Proof.
  intros H.
  assert (Hdone : wf (match etcd.nodes s !! key with
                      | Some _ => (etcd.received (etcd.CreateReq key) s,
                                   Err (EtcdError etcd.EcodeNodeExist "Key already exists"))
                      | None => let '(s', n) := etcd.put key v (etcd.received (etcd.CreateReq key) s)
                                in (s', Ok n)
                      end).1).
  { destruct (etcd.nodes s !! key); [done|]. by apply wf_stored. }
  unfold etcd.Create. simpl. destruct (etcd.struck _ _) as [f|]; [|exact Hdone].
  unfold etcd.lostReply. destruct (etcd.carriedOut f); [exact Hdone|done].
Qed.

Lemma wf_CompareAndSwap key v prevIndex s :
  wf s → wf (etcd.CompareAndSwap key v prevIndex s).1.
Proof.
  intros H.
  assert (Hdone : wf (match etcd.nodes s !! key with
                      | None => (etcd.received (etcd.CompareAndSwapReq key prevIndex) s,
                                 Err (EtcdError etcd.EcodeKeyNotFound "Key not found"))
                      | Some n =>
                        if etcd.ModifiedIndex n =? prevIndex
                        then let '(s', n') :=
                               etcd.put key v (etcd.received (etcd.CompareAndSwapReq key prevIndex) s)
                             in (s', Ok n')
                        else (etcd.received (etcd.CompareAndSwapReq key prevIndex) s,
                              Err (EtcdError etcd.EcodeTestFailed "Compare failed"))
                      end).1).
  { destruct (etcd.nodes s !! key) as [n|]; [|done].
    destruct (etcd.ModifiedIndex n =? prevIndex); [|done]. by apply wf_stored. }
  unfold etcd.CompareAndSwap. simpl. destruct (etcd.struck _ _) as [f|]; [|exact Hdone].
  unfold etcd.lostReply. destruct (etcd.carriedOut f); [exact Hdone|done].
Qed.

(** ** [AtomicUpdate], one caller *)

Section AtomicUpdate.

Context {C : Type}.
Variables (key : string) (tryUpdate : tools.EtcdUpdateFunc C).

(** A failed read ends the call, whatever the failure. *)
Lemma atomicUpdate_struck n c s f :
  etcd.struck (etcd.GetReq key) s = Some f →
  tools.atomicUpdate n key false tryUpdate c s
  = (etcd.received (etcd.GetReq key) s, ret (c, Some (etcd.reply f))).
Proof. intros Ho. destruct n; simpl; by rewrite (Get_struck _ _ _ Ho). Qed.

Lemma atomicUpdate_missing n c s :
  etcd.outage s = None → etcd.nodes s !! key = None →
  tools.atomicUpdate n key false tryUpdate c s
  = (etcd.received (etcd.GetReq key) s,
     ret (c, Some (EtcdError etcd.EcodeKeyNotFound "Key not found"))).
Proof. intros Ho Hn. destruct n; simpl; by rewrite (Get_missing _ _ Ho Hn). Qed.

(** A rejection by the mutation function ends the call after the read. *)
Lemma atomicUpdate_rejected n c s node c1 e :
  etcd.outage s = None → etcd.nodes s !! key = Some node →
  tryUpdate (etcd.Value node) c = ret (c1, Err e) →
  tools.atomicUpdate n key false tryUpdate c s
  = (etcd.received (etcd.GetReq key) s, ret (c1, Some e)).
Proof.
  intros Ho Hn Hf. destruct n; simpl; rewrite (Get_found _ _ _ Ho Hn); simpl;
    by rewrite Hf.
Qed.

(** With no other writer the first attempt stores what the mutation function
    returns. *)
Lemma atomicUpdate_stored n c s node c1 o ttl :
  etcd.outage s = None → etcd.nodes s !! key = Some node → wf s →
  tryUpdate (etcd.Value node) c = ret (c1, Ok (o, ttl)) →
  tools.atomicUpdate n key false tryUpdate c s
  = (etcd.mk (<[key := etcd.mkNode o (etcd.index s + 1)]> (etcd.nodes s))
       (etcd.index s + 1) None
       (etcd.requests s
          ++ [etcd.GetReq key; etcd.CompareAndSwapReq key (etcd.ModifiedIndex node)]),
     ret (c1, None)).
Proof.
  intros Ho Hn Hwf Hf.
  assert (Hw := writeBack_current key o (etcd.received (etcd.GetReq key) s) node Ho Hn
                  (proj1 (proj2 Hwf _ _ Hn))).
  destruct n; simpl; rewrite (Get_found _ _ _ Ho Hn); simpl; rewrite Hf, Hw; simpl;
    by rewrite <- (assoc_L (++)).
Qed.

End AtomicUpdate.

(** ** [assignPod] and [Create], one caller *)

Section Bind.

Variables (r : BindingREST.t) (ctx : Context).

Lemma assignPod_keyError podID machine annotations s err :
  etcdgeneric.KeyFunc (BindingREST.store r) ctx podID = Err err →
  BindingREST.assignPod r ctx podID machine annotations s
  = (s, ret (Some (BindingREST.interpret podID err))).
Proof.
  intros Hk. unfold BindingREST.assignPod, BindingREST.setPodHostAndAnnotations.
  by rewrite Hk.
Qed.

Lemma assignPod_struck podID machine annotations s key f :
  etcdgeneric.KeyFunc (BindingREST.store r) ctx podID = Ok key →
  etcd.struck (etcd.GetReq key) s = Some f →
  BindingREST.assignPod r ctx podID machine annotations s
  = (etcd.received (etcd.GetReq key) s,
     ret (Some (BindingREST.interpret podID (etcd.reply f)))).
Proof.
  intros Hk Ho. unfold BindingREST.assignPod, BindingREST.setPodHostAndAnnotations.
  rewrite Hk. unfold tools.AtomicUpdate. by rewrite (atomicUpdate_struck _ _ _ _ _ _ Ho).
Qed.

(** A write that fails with an error that is no version race ends the call
    with that error. *)
Lemma assignPod_writeStruck podID machine annotations s key n f :
  etcdgeneric.KeyFunc (BindingREST.store r) ctx podID = Ok key →
  etcd.struck (etcd.GetReq key) s = None →
  etcd.nodes s !! key = Some n → unassigned (etcd.Value n) → 0 < etcd.ModifiedIndex n →
  etcd.struck (etcd.CompareAndSwapReq key (etcd.ModifiedIndex n)) s = Some f →
  tools.IsEtcdTestFailed (etcd.reply f) = false →
  ∃ s', BindingREST.assignPod r ctx podID machine annotations s
        = (s', ret (Some (BindingREST.interpret podID (etcd.reply f)))).
Proof.
  intros Hk Hg Hn Hu Hpos Hw Hraced.
  unfold BindingREST.assignPod, BindingREST.setPodHostAndAnnotations.
  rewrite Hk. unfold tools.AtomicUpdate.
  destruct (writeBack_struck key (bound (etcd.Value n) machine annotations)
              (etcd.ModifiedIndex n) (etcd.received (etcd.GetReq key) s) f
              ltac:(lia) Hw) as [s2 Hs2].
  assert (Hr : tools.raced (etcd.ModifiedIndex n) (etcd.reply f) = false).
  { unfold tools.raced. destruct (Z.eqb_spec (etcd.ModifiedIndex n) 0); [lia|done]. }
  destruct (tools.Retries (etcdgeneric.Helper (BindingREST.store r))); simpl;
    rewrite (Get_answered _ _ _ Hg Hn); simpl;
    rewrite (tryUpdate_unassigned machine annotations _ None Hu), Hs2; simpl;
    rewrite Hr; by eexists.
Qed.

Lemma assignPod_missing podID machine annotations s key :
  etcdgeneric.KeyFunc (BindingREST.store r) ctx podID = Ok key →
  etcd.outage s = None → etcd.nodes s !! key = None →
  BindingREST.assignPod r ctx podID machine annotations s
  = (etcd.received (etcd.GetReq key) s, ret (Some (NewNotFound "pod" podID))).
Proof.
  intros Hk Ho Hn. unfold BindingREST.assignPod, BindingREST.setPodHostAndAnnotations.
  rewrite Hk. unfold tools.AtomicUpdate. by rewrite (atomicUpdate_missing _ _ _ _ _ Ho Hn).
Qed.

Lemma assignPod_assigned podID machine annotations s key n :
  etcdgeneric.KeyFunc (BindingREST.store r) ctx podID = Ok key →
  etcd.outage s = None → etcd.nodes s !! key = Some n →
  ¬ unassigned (etcd.Value n) →
  BindingREST.assignPod r ctx podID machine annotations s
  = (etcd.received (etcd.GetReq key) s,
     ret (Some (NewConflict "binding" podID
                  (Errorf (BindingREST.alreadyAssigned (etcd.Value n)))))).
Proof.
  intros Hk Ho Hn Hna. unfold BindingREST.assignPod, BindingREST.setPodHostAndAnnotations.
  rewrite Hk. unfold tools.AtomicUpdate.
  by rewrite (atomicUpdate_rejected _ _ _ _ _ _ _ _ Ho Hn
                (tryUpdate_assigned machine annotations _ None Hna)).
Qed.

(** The state of the store after a successful binding. *)
Lemma assignPod_unassigned podID machine annotations s key n :
  etcdgeneric.KeyFunc (BindingREST.store r) ctx podID = Ok key →
  etcd.outage s = None → wf s → etcd.nodes s !! key = Some n →
  unassigned (etcd.Value n) →
  BindingREST.assignPod r ctx podID machine annotations s
  = (etcd.mk
       (<[key := etcd.mkNode (bound (etcd.Value n) machine annotations) (etcd.index s + 1)]>
          (etcd.nodes s))
       (etcd.index s + 1) None
       (etcd.requests s
          ++ [etcd.GetReq key; etcd.CompareAndSwapReq key (etcd.ModifiedIndex n)]),
     ret None).
Proof.
  intros Hk Ho Hwf Hn Hun. unfold BindingREST.assignPod, BindingREST.setPodHostAndAnnotations.
  rewrite Hk. unfold tools.AtomicUpdate.
  by rewrite (atomicUpdate_stored _ _ _ _ _ _ _ _ _ Ho Hn Hwf
                (tryUpdate_unassigned machine annotations _ None Hun)).
Qed.

Lemma Create_valid binding s :
  BindingREST.validate binding = None →
  BindingREST.Create r ctx binding s
  = (let '(s', res) :=
       BindingREST.assignPod r ctx (ObjectMeta.Name (BindingMeta binding))
         (ObjectReference.Name (Target binding))
         (ObjectMeta.Annotations (BindingMeta binding)) s in
     (s', err ← res; ret (Some (mkStatus StatusSuccess), err))).
Proof. intros Hv. unfold BindingREST.Create. by rewrite Hv. Qed.

End Bind.

Lemma mapaccess_entries (m : gomap) k : mapaccess m k = entries m !! k.
Proof. destruct m; simpl; [done|by rewrite lookup_empty]. Qed.

(** C3. For every record with both host fields empty, a valid bind request
    with target name H and annotations A succeeds, and stores a record whose
    Spec.Host and Status.Host are H and whose annotations are the old ones
    with every key of A added or overwritten by the value A gives it; the
    keys that A lacks keep their old values, and the other records stay as
    they are. *)
Theorem bind_unassigned_sets_host_and_merges
    (r : BindingREST.t) (ctx : Context) (binding : Binding) (s : etcd.t)
    (key : string) (n : etcd.Node) :
  BindingREST.validate binding = None →
  etcdgeneric.KeyFunc (BindingREST.store r) ctx (ObjectMeta.Name (BindingMeta binding))
    = Ok key →
  etcd.outage s = None → wf s →
  etcd.nodes s !! key = Some n →
  unassigned (etcd.Value n) →
  ∃ s' n',
    BindingREST.Create r ctx binding s = (s', ret (Some (mkStatus StatusSuccess), None))
    ∧ etcd.nodes s' !! key = Some n'
    ∧ PodSpec.Host (Spec (etcd.Value n')) = ObjectReference.Name (Target binding)
    ∧ PodStatus.Host (Status (etcd.Value n')) = ObjectReference.Name (Target binding)
    ∧ (∀ k v, mapaccess (ObjectMeta.Annotations (BindingMeta binding)) k = Some v →
              mapaccess (ObjectMeta.Annotations (PodMeta (etcd.Value n'))) k = Some v)
    ∧ (∀ k, mapaccess (ObjectMeta.Annotations (BindingMeta binding)) k = None →
            mapaccess (ObjectMeta.Annotations (PodMeta (etcd.Value n'))) k
            = mapaccess (ObjectMeta.Annotations (PodMeta (etcd.Value n))) k)
    ∧ (∀ key', key' ≠ key → etcd.nodes s' !! key' = etcd.nodes s !! key').
Proof.
  intros Hv Hk Ho Hwf Hn Hun.
  rewrite (Create_valid _ _ _ _ Hv), (assignPod_unassigned _ _ _ _ _ _ _ _ Hk Ho Hwf Hn Hun).
  eexists _, _. split; [reflexivity|]. simpl.
  split; [apply lookup_insert_eq|]. simpl.
  split; [done|]. split; [done|].
  split; [|split].
  - intros k v. rewrite mapaccess_entries. intros Hkv.
    by apply lookup_union_Some_l.
  - intros k. rewrite !mapaccess_entries. intros Hkn.
    by apply lookup_union_r.
  - intros key' Hne. by rewrite lookup_insert_ne.
Qed.

(** C10. For every unassigned record whose annotation map is nil, a valid
    bind request with an annotation map succeeds without error and without a
    write to the nil map: the mutation function makes an empty map before it
    merges, and the annotations of the stored record are exactly those of the
    request. *)
Theorem bind_nil_annotations_initialized
    (r : BindingREST.t) (ctx : Context) (binding : Binding) (s : etcd.t)
    (key : string) (n : etcd.Node) (a : gmap string string) :
  BindingREST.validate binding = None →
  etcdgeneric.KeyFunc (BindingREST.store r) ctx (ObjectMeta.Name (BindingMeta binding))
    = Ok key →
  etcd.outage s = None → wf s →
  etcd.nodes s !! key = Some n →
  unassigned (etcd.Value n) →
  ObjectMeta.Annotations (PodMeta (etcd.Value n)) = None →
  ObjectMeta.Annotations (BindingMeta binding) = Some a →
  ∃ s' n',
    BindingREST.Create r ctx binding s = (s', ret (Some (mkStatus StatusSuccess), None))
    ∧ etcd.nodes s' !! key = Some n'
    ∧ ObjectMeta.Annotations (PodMeta (etcd.Value n')) = Some a.
Proof.
  intros Hv Hk Ho Hwf Hn Hun Hnil Ha.
  rewrite (Create_valid _ _ _ _ Hv), (assignPod_unassigned _ _ _ _ _ _ _ _ Hk Ho Hwf Hn Hun).
  eexists _, _. split; [reflexivity|]. simpl.
  split; [apply lookup_insert_eq|]. simpl.
  rewrite Hnil, Ha. simpl. by rewrite (right_id_L ∅ (∪)).
Qed.

Lemma Create_error r ctx binding s s' err :
  BindingREST.validate binding = None →
  BindingREST.assignPod r ctx (ObjectMeta.Name (BindingMeta binding))
    (ObjectReference.Name (Target binding))
    (ObjectMeta.Annotations (BindingMeta binding)) s = (s', ret err) →
  BindingREST.Create r ctx binding s = (s', ret (Some (mkStatus StatusSuccess), err)).
Proof. intros Hv Ha. by rewrite (Create_valid _ _ _ _ Hv), Ha. Qed.

(** C2. For every record whose Spec.Host or Status.Host is set, a valid bind
    request against it fails with Conflict and leaves every stored record as
    it is, whatever host the request names, the recorded one included. *)
Theorem bind_assigned_conflicts
    (r : BindingREST.t) (ctx : Context) (binding : Binding)
    (s : etcd.t) (key : string) (n : etcd.Node) :
  BindingREST.validate binding = None →
  etcdgeneric.KeyFunc (BindingREST.store r) ctx (ObjectMeta.Name (BindingMeta binding))
    = Ok key →
  etcd.outage s = None →
  etcd.nodes s !! key = Some n →
  PodSpec.Host (Spec (etcd.Value n)) ≠ "" ∨ PodStatus.Host (Status (etcd.Value n)) ≠ "" →
  ∃ s' out e,
    BindingREST.Create r ctx binding s = (s', ret (out, Some e))
    ∧ IsConflict e = true
    ∧ etcd.nodes s' = etcd.nodes s
    ∧ etcd.index s' = etcd.index s.
Proof.
  intros Hv Hk Ho Hn Hhost.
  assert (Hna : ¬ unassigned (etcd.Value n)) by (intros [? ?]; destruct Hhost; congruence).
  rewrite (Create_error _ _ _ _ _ _ Hv (assignPod_assigned _ _ _ _ _ _ _ _ Hk Ho Hn Hna)).
  eexists _, _, _. by repeat split.
Qed.

(** ** Validation *)

Lemma length_zero (x : string) : (String.length x =? 0)%nat = bool_decide (x = "").
Proof. by destruct x. Qed.

Lemma validate_kind binding :
  ¬ recognizedKind (ObjectReference.Kind (Target binding)) →
  BindingREST.validate binding
  = Some (NewInvalid "binding" (ObjectMeta.Name (BindingMeta binding))
            [fielderrors.NewFieldInvalid "to.kind" (ObjectReference.Kind (Target binding))
               "must be empty, 'Node', or 'Minion'"]).
Proof.
  intros Hk. unfold BindingREST.validate, recognizedKind in *.
  rewrite length_zero.
  rewrite (bool_decide_eq_false_2 (ObjectReference.Kind (Target binding) = "")) by tauto.
  rewrite (bool_decide_eq_true_2 (ObjectReference.Kind (Target binding) ≠ "Node")) by tauto.
  by rewrite (bool_decide_eq_true_2 (ObjectReference.Kind (Target binding) ≠ "Minion"))
    by tauto.
Qed.

Lemma validate_name binding :
  recognizedKind (ObjectReference.Kind (Target binding)) →
  ObjectReference.Name (Target binding) = "" →
  BindingREST.validate binding
  = Some (NewInvalid "binding" (ObjectMeta.Name (BindingMeta binding))
            [fielderrors.NewFieldRequired "to.name"]).
Proof.
  intros Hk Hn. unfold BindingREST.validate. rewrite Hn.
  destruct Hk as [-> | [-> | ->]]; reflexivity.
Qed.

(** A binding that passes names a recognized kind and a target. *)
Lemma validate_None binding :
  BindingREST.validate binding = None →
  recognizedKind (ObjectReference.Kind (Target binding))
  ∧ ObjectReference.Name (Target binding) ≠ "".
Proof.
  unfold BindingREST.validate. rewrite !length_zero. intros Hv. split.
  - unfold recognizedKind.
    destruct (decide (ObjectReference.Kind (Target binding) = "")) as [|H1]; [tauto|].
    destruct (decide (ObjectReference.Kind (Target binding) = "Node")) as [|H2]; [tauto|].
    destruct (decide (ObjectReference.Kind (Target binding) = "Minion")) as [|H3]; [tauto|].
    rewrite (bool_decide_eq_false_2 _ H1) in Hv.
    rewrite (bool_decide_eq_true_2 (_ ≠ "Node") H2) in Hv.
    by rewrite (bool_decide_eq_true_2 (_ ≠ "Minion") H3) in Hv.
  - intros Hn. rewrite Hn in Hv. simpl in Hv.
    by destruct (negb _ && _).
Qed.

Lemma recognizedKind_dec kind : Decision (recognizedKind kind).
Proof. unfold recognizedKind. apply _. Qed.

(** C4. For every bind request whose target kind is neither empty nor a
    recognized host kind, and for every bind request whose target name is
    empty, [Create] fails with a validation error that names the offending
    field, and sends no request to the store: the store, the trace of the
    requests it received included, is as it was. *)
Theorem invalid_binding_rejected_before_store
    (r : BindingREST.t) (ctx : Context) (binding : Binding) (s : etcd.t) :
  ¬ recognizedKind (ObjectReference.Kind (Target binding))
  ∨ ObjectReference.Name (Target binding) = "" →
  ∃ ve,
    BindingREST.Create r ctx binding s
    = (s, ret (None, Some (NewInvalid "binding" (ObjectMeta.Name (BindingMeta binding)) [ve])))
    ∧ (¬ recognizedKind (ObjectReference.Kind (Target binding)) →
       fielderrors.Field ve = "to.kind")
    ∧ (recognizedKind (ObjectReference.Kind (Target binding)) →
       fielderrors.Field ve = "to.name").
Proof.
  intros Hbad. unfold BindingREST.Create.
  destruct (recognizedKind_dec (ObjectReference.Kind (Target binding))) as [Hk|Hk].
  - destruct Hbad as [Hnk|Hn]; [tauto|].
    rewrite (validate_name _ Hk Hn). eexists. split; [reflexivity|]. split; [tauto|done].
  - rewrite (validate_kind _ Hk). eexists. split; [reflexivity|]. split; [done|tauto].
Qed.

(** ** Translation of failures *)

Lemma append_assoc (a b c : string) : (a +:+ b) +:+ c = a +:+ b +:+ c.
Proof.
  induction a as [|x a IH]; [reflexivity|].
  change (String x ((a +:+ b) +:+ c) = String x (a +:+ b +:+ c)). by f_equal.
Qed.

Lemma contains_trans (a b c : string) : contains a b → contains b c → contains a c.
Proof.
  intros (p1 & q1 & ->) (p2 & q2 & ->). exists (p1 +:+ p2), (q2 +:+ q1).
  by rewrite !append_assoc.
Qed.

Lemma contains_end (a b : string) : contains (a +:+ b) b.
Proof.
  exists a, "". f_equal. clear. induction b as [|x b IH]; [reflexivity|].
  change (String x b = String x (b +:+ "")). by f_equal.
Qed.

Lemma quoteByte_plain c : plainByte c = true → quoteByte c = String c "".
Proof.
  unfold plainByte, quoteByte. generalize (N_of_ascii c). intros n.
  rewrite !andb_true_iff, !negb_true_iff. intros [[[H1 H2] H3] H4].
  apply N.leb_le in H1. apply N.ltb_lt in H2.
  rewrite H3, H4.
  repeat match goal with
         | |- context [(n =? ?k)%N] =>
           destruct (N.eqb_spec n k) as [?|_]; [lia|]
         end.
  destruct (N.ltb_spec n 32) as [?|_]; [lia|]. reflexivity.
Qed.

(** [quote] escapes nothing in a plain string. *)
Lemma quoteBody_plain h : plain h = true → quoteBody h = h.
Proof.
  induction h as [|c h IH]; simpl; [done|].
  rewrite andb_true_iff. intros [Hc Hh]. rewrite (quoteByte_plain _ Hc), (IH Hh).
  reflexivity.
Qed.

Lemma quote_contains_plain h : plain h = true → contains (quote h) h.
Proof.
  intros Hp. unfold quote. rewrite (quoteBody_plain _ Hp).
  by exists (String dquote ""), (String dquote "").
Qed.

Lemma contains_app_r (a b c : string) : contains b c → contains (a +:+ b) c.
Proof. intros (p & q & ->). exists (a +:+ p), q. by rewrite append_assoc. Qed.

Lemma contains_begin (a b : string) : contains (a +:+ b) a.
Proof. by exists "", b. Qed.

(** The text of the rejection holds both host fields, quoted. *)
Lemma alreadyAssigned_hosts pod :
  contains (BindingREST.alreadyAssigned pod) (quote (PodSpec.Host (Spec pod)))
  ∧ contains (BindingREST.alreadyAssigned pod) (quote (PodStatus.Host (Status pod))).
Proof.
  unfold BindingREST.alreadyAssigned. split.
  - do 3 apply contains_app_r. apply contains_begin.
  - do 4 apply contains_app_r. apply contains_end.
Qed.

Lemma interpret_notFound podID err :
  tools.IsEtcdNotFound err = true →
  BindingREST.interpret podID err = NewNotFound "pod" podID.
Proof.
  intros H. unfold BindingREST.interpret, etcderr.InterpretGetError. by rewrite H.
Qed.

Lemma interpret_updateConflict podID err :
  tools.IsEtcdTestFailed err || tools.IsEtcdNodeExist err = true →
  BindingREST.interpret podID err = NewConflict "pod" podID err.
Proof.
  intros H. unfold BindingREST.interpret, etcderr.InterpretGetError.
  destruct err as [c m| | | | |]; try discriminate H. simpl in *.
  destruct (Z.eqb_spec c etcd.EcodeKeyNotFound) as [->|_]; [discriminate H|].
  unfold etcderr.InterpretUpdateError. simpl. by rewrite H.
Qed.

Lemma interpret_statusError podID err :
  isStatusError err = true → BindingREST.interpret podID err = err.
Proof. by destruct err. Qed.

Lemma interpret_other podID err :
  isStatusError err = false →
  tools.IsEtcdNotFound err = false →
  tools.IsEtcdTestFailed err || tools.IsEtcdNodeExist err = false →
  BindingREST.interpret podID err = NewConflict "binding" podID err.
Proof.
  intros H1 H2 H3. unfold BindingREST.interpret, etcderr.InterpretGetError.
  rewrite H2. unfold etcderr.InterpretUpdateError. rewrite H3. by rewrite H1.
Qed.

Lemma setPodHostAndAnnotations_assignPod r ctx podID machine annotations s s1 res :
  BindingREST.setPodHostAndAnnotations r ctx podID "" machine annotations s = (s1, res) →
  BindingREST.assignPod r ctx podID machine annotations s
  = (s1, '(_, err) ← res;
         ret (match err with
              | Some err => Some (BindingREST.interpret podID err)
              | None => None
              end)).
Proof. intros H. unfold BindingREST.assignPod. by rewrite H. Qed.

(** C5, as the code has it. For every valid bind request whose storage-key
    derivation fails, the bind fails without a request to the store, and the
    error of the key function is translated as any other failure is: it is
    returned as it is when it is a domain error already, it becomes NotFound
    only when it is the not-found error of the store, and it becomes Conflict
    otherwise. *)
Theorem key_failure_translated
    (r : BindingREST.t) (ctx : Context) (binding : Binding) (s : etcd.t) (err : error) :
  BindingREST.validate binding = None →
  etcdgeneric.KeyFunc (BindingREST.store r) ctx (ObjectMeta.Name (BindingMeta binding))
    = Err err →
  ∃ out e,
    BindingREST.Create r ctx binding s = (s, ret (out, Some e))
    ∧ (isStatusError err = true → e = err)
    ∧ (tools.IsEtcdNotFound err = true →
       e = NewNotFound "pod" (ObjectMeta.Name (BindingMeta binding)))
    ∧ (isStatusError err = false → tools.IsEtcdNotFound err = false → IsConflict e = true).
Proof.
  intros Hv Hk.
  rewrite (Create_error _ _ _ _ _ _ Hv (assignPod_keyError _ _ _ _ _ _ _ Hk)).
  eexists _, _. split; [reflexivity|]. split; [|split].
  - apply interpret_statusError.
  - apply interpret_notFound.
  - intros H1 H2.
    destruct (tools.IsEtcdTestFailed err || tools.IsEtcdNodeExist err) eqn:H3.
    + by rewrite (interpret_updateConflict _ _ H3).
    + by rewrite (interpret_other _ _ H1 H2 H3).
Qed.

(** C5, as the spec has it, fails: the key of a pod with the empty name cannot
    be derived, and the bind fails with the bad request of the key function,
    which is not NotFound. *)
Lemma key_failure_is_not_NotFound :
  etcdgeneric.KeyFunc (BindingREST.store (BindingStorage example.storage)) example.ctx ""
    = Err (NewBadRequest "InvalidIdentifier")
  ∧ BindingREST.Create (BindingStorage example.storage) example.ctx
      (example.bindTo "" "Node" "node-1" None) (example.holding example.web)
    = (example.holding example.web,
       ret (Some (mkStatus StatusSuccess), Some (NewBadRequest "InvalidIdentifier")))
  ∧ IsNotFound (NewBadRequest "InvalidIdentifier") = false.
Proof. by repeat split. Qed.

(** The characters of a string that occurs in another one occur in it. *)
Lemma list_ascii_of_string_app (a b : string) :
  list_ascii_of_string (a +:+ b) = (list_ascii_of_string a ++ list_ascii_of_string b)%list.
Proof. induction a as [|c a IH]; simpl; [done|]. by rewrite <- IH. Qed.

Lemma contains_chars (s sub : string) (c : ascii) :
  contains s sub → c ∈ list_ascii_of_string sub → c ∈ list_ascii_of_string s.
Proof.
  intros (pre & post & ->) Hc. rewrite !list_ascii_of_string_app, !elem_of_app. auto.
Qed.

(** C6, as the code has it. Every failure of a bind is translated where
    [assignPod] returns: a not-found error of the store becomes NotFound; an
    update conflict of the store becomes a Conflict around the error of the
    store; a domain error stays as it is; any other error is wrapped as
    Conflict. The rejection of a record that has a host already becomes a
    Conflict around an error whose text holds both host fields of the record:
    as [%q] prints them when no byte of them is 0x7f or above, hence the host
    itself when it needs no escape. *)
Theorem bind_failure_translated
    (r : BindingREST.t) (ctx : Context) (podID machine : string) (annotations : gomap)
    (s : etcd.t) :
  (∀ s1 finalPod err,
     BindingREST.setPodHostAndAnnotations r ctx podID "" machine annotations s
       = (s1, ret (finalPod, Some err)) →
     ∃ err',
       BindingREST.assignPod r ctx podID machine annotations s = (s1, ret (Some err'))
       ∧ (tools.IsEtcdNotFound err = true → err' = NewNotFound "pod" podID)
       ∧ (tools.IsEtcdTestFailed err || tools.IsEtcdNodeExist err = true →
          err' = NewConflict "pod" podID err)
       ∧ (isStatusError err = true → err' = err)
       ∧ (isStatusError err = false → tools.IsEtcdNotFound err = false →
          tools.IsEtcdTestFailed err || tools.IsEtcdNodeExist err = false →
          err' = NewConflict "binding" podID err))
  ∧ (∀ key n,
       etcdgeneric.KeyFunc (BindingREST.store r) ctx podID = Ok key →
       etcd.outage s = None →
       etcd.nodes s !! key = Some n →
       PodSpec.Host (Spec (etcd.Value n)) ≠ ""
       ∨ PodStatus.Host (Status (etcd.Value n)) ≠ "" →
       ∃ s1 reason,
         BindingREST.assignPod r ctx podID machine annotations s
           = (s1, ret (Some (NewConflict "binding" podID (Errorf reason))))
         ∧ (quotable (PodSpec.Host (Spec (etcd.Value n))) = true →
            contains reason (quote (PodSpec.Host (Spec (etcd.Value n)))))
         ∧ (quotable (PodStatus.Host (Status (etcd.Value n))) = true →
            contains reason (quote (PodStatus.Host (Status (etcd.Value n)))))
         ∧ (plain (PodSpec.Host (Spec (etcd.Value n))) = true →
            contains reason (PodSpec.Host (Spec (etcd.Value n))))
         ∧ (plain (PodStatus.Host (Status (etcd.Value n))) = true →
            contains reason (PodStatus.Host (Status (etcd.Value n))))).
Proof.
  split.
  - intros s1 finalPod err Hs.
    rewrite (setPodHostAndAnnotations_assignPod _ _ _ _ _ _ _ _ Hs).
    eexists. split; [reflexivity|].
    split; [apply interpret_notFound|].
    split; [apply interpret_updateConflict|].
    split; [apply interpret_statusError|apply interpret_other].
  - intros key n Hk Ho Hn Hhost.
    assert (Hna : ¬ unassigned (etcd.Value n))
      by (intros [? ?]; destruct Hhost; congruence).
    rewrite (assignPod_assigned _ _ _ _ _ _ _ _ Hk Ho Hn Hna).
    destruct (alreadyAssigned_hosts (etcd.Value n)) as [H1 H2].
    eexists _, _. split; [reflexivity|].
    split; [intros _; exact H1|]. split; [intros _; exact H2|]. split.
    + intros Hp. exact (contains_trans _ _ _ H1 (quote_contains_plain _ Hp)).
    + intros Hp. exact (contains_trans _ _ _ H2 (quote_contains_plain _ Hp)).
Qed.

(** C6, as the spec has it, fails: of two bindings that read the pod before
    either writes, with a helper that has no retry left, the second to write
    fails with the Conflict that wraps the update conflict of the store, and
    the text of that error does not hold the host that the pod has by then. *)
Lemma update_conflict_names_no_host :
  bindings.errorOf <$>
    (bindings.run [0; 1; 0; 1]%nat
       (example.holding example.web,
        bindings.begin (BindingStorage example.storageNoRetry) example.ctx
          <$> [example.bindTo "web" "Node" "node-1" None;
               example.bindTo "web" "Node" "node-2" None])).2
  = [Some None;
     Some (Some (NewConflict "pod" "web"
                   (EtcdError etcd.EcodeTestFailed "Compare failed")))]
  ∧ etcd.Value <$>
      etcd.nodes
        (bindings.run [0; 1; 0; 1]%nat
           (example.holding example.web,
            bindings.begin (BindingStorage example.storageNoRetry) example.ctx
              <$> [example.bindTo "web" "Node" "node-1" None;
                   example.bindTo "web" "Node" "node-2" None])).1 !! example.key
    = Some (bound example.web "node-1" None)
  ∧ ¬ contains "Compare failed" "node-1".
Proof.
  split; [reflexivity|]. split; [reflexivity|].
  intros H. pose proof (contains_chars _ _ "-"%char H) as Hc. simpl in Hc.
  assert (Hin : "-"%char ∈ ["n"; "o"; "d"; "e"; "-"; "1"]%char)
    by (rewrite !elem_of_cons; auto 10).
  specialize (Hc Hin).
  repeat (apply elem_of_cons in Hc as [Hc|Hc]; [discriminate Hc|]).
  by apply elem_of_nil in Hc.
Qed.

(** C7, as the code has it. For every valid bind that meets a failure of the
    store with a transient or infrastructure error, that is an error that is
    neither the not-found error nor an update conflict of the store nor a
    domain error, the caller gets a Conflict that wraps the error: when the
    failure strikes the read, and when it strikes the write of the bound
    record, whether the store carried that write out or not. *)
Theorem transient_error_wrapped_as_conflict
    (r : BindingREST.t) (ctx : Context) (binding : Binding) (s : etcd.t)
    (key : string) (f : etcd.fault) :
  BindingREST.validate binding = None →
  etcdgeneric.KeyFunc (BindingREST.store r) ctx (ObjectMeta.Name (BindingMeta binding))
    = Ok key →
  etcd.outage s = Some f →
  isStatusError (etcd.reply f) = false →
  tools.IsEtcdNotFound (etcd.reply f) = false →
  tools.IsEtcdTestFailed (etcd.reply f) || tools.IsEtcdNodeExist (etcd.reply f) = false →
  etcd.strikes f (etcd.GetReq key) = true
  ∨ (∃ n, etcd.nodes s !! key = Some n
          ∧ unassigned (etcd.Value n)
          ∧ 0 < etcd.ModifiedIndex n
          ∧ etcd.strikes f (etcd.CompareAndSwapReq key (etcd.ModifiedIndex n)) = true) →
  ∃ s' out,
    BindingREST.Create r ctx binding s
    = (s', ret (out, Some (NewConflict "binding" (ObjectMeta.Name (BindingMeta binding))
                             (etcd.reply f)))).
Proof.
  intros Hv Hk Ho H1 H2 H3 Hmeet.
  assert (Hstruck : ∀ q, etcd.strikes f q = true → etcd.struck q s = Some f).
  { intros q Hq. unfold etcd.struck. by rewrite Ho, Hq. }
  destruct (etcd.strikes f (etcd.GetReq key)) eqn:Hg.
  - rewrite (Create_error _ _ _ _ _ _ Hv (assignPod_struck _ _ _ _ _ _ _ _ Hk (Hstruck _ Hg))).
    rewrite (interpret_other _ _ H1 H2 H3). by eexists _, _.
  - destruct Hmeet as [?|(n & Hn & Hu & Hpos & Hw)]; [done|].
    assert (Hg' : etcd.struck (etcd.GetReq key) s = None).
    { unfold etcd.struck. by rewrite Ho, Hg. }
    apply orb_false_iff in H3 as H3'. destruct H3' as [H3' _].
    destruct (assignPod_writeStruck r ctx (ObjectMeta.Name (BindingMeta binding))
                (ObjectReference.Name (Target binding))
                (ObjectMeta.Annotations (BindingMeta binding)) s key n f
                Hk Hg' Hn Hu Hpos (Hstruck _ Hw) H3') as [s' Hs'].
    rewrite (Create_error _ _ _ _ _ _ Hv Hs').
    rewrite (interpret_other _ _ H1 H2 H3). by eexists _, _.
Qed.

(** C7, as the spec has it, fails: a request to the store that times out is
    reported to the caller as Conflict, not as the timeout it is. *)
Lemma timeout_reported_as_conflict :
  ∃ s',
    BindingREST.Create (BindingStorage example.storage) example.ctx
      (example.bindTo "web" "Node" "node-1" None)
      (example.unreachable example.web example.timeout)
    = (s', ret (Some (mkStatus StatusSuccess),
                Some (NewConflict "binding" "web" example.timeout)))
  ∧ IsConflict (NewConflict "binding" "web" example.timeout) = true
  ∧ NewConflict "binding" "web" example.timeout ≠ example.timeout.
Proof. eexists. by repeat split. Qed.

(** The caller of a bind that timed out cannot tell what became of it: when
    the reply to the write is lost, the caller gets the same Conflict, and the
    pod is bound. *)
Lemma timed_out_write_has_bound :
  ∃ s',
    BindingREST.Create (BindingStorage example.storage) example.ctx
      (example.bindTo "web" "Node" "node-1" None)
      (example.timingOut example.web example.timeout)
    = (s', ret (Some (mkStatus StatusSuccess),
                Some (NewConflict "binding" "web" example.timeout)))
  ∧ etcd.nodes s' !! example.key
    = Some (etcd.mkNode (bound example.web "node-1" None) 8).
Proof. eexists. split; reflexivity. Qed.

(** C8 fails on the code: a valid bind request against a pod that has a host
    already returns the success status together with the Conflict. *)
Lemma Create_returns_status_with_error :
  ∃ s',
    BindingREST.Create (BindingStorage example.storage) example.ctx
      (example.bindTo "web" "Node" "node-2" None) (example.holding example.placed)
    = (s', ret (Some (mkStatus StatusSuccess),
                Some (NewConflict "binding" "web"
                        (Errorf (BindingREST.alreadyAssigned example.placed))))).
Proof. eexists. reflexivity. Qed.

(** The failures of validation, next to it, return no object with the
    error. *)
Lemma Create_invalid_returns_no_status :
  BindingREST.Create (BindingStorage example.storage) example.ctx
    (example.bindTo "web" "Pod" "node-2" None) (example.holding example.placed)
  = (example.holding example.placed,
     ret (None,
          Some (NewInvalid "binding" "web"
                  [fielderrors.NewFieldInvalid "to.kind" "Pod"
                     "must be empty, 'Node', or 'Minion'"]))).
Proof. reflexivity. Qed.

(** ** The status surface *)

(** C9. For every existing record and every update through the status
    surface that the validation accepts, the stored record has the spec of the
    record that was there before, whatever spec the payload carries, and the
    status of the payload. *)
Theorem status_update_preserves_spec
    (NamespaceKeyRootFunc : Context → string → string)
    (NamespaceKeyFunc : Context → string → string → result string)
    (ValidatePodUpdate ValidatePodStatusUpdate :
       Pod → Pod → list fielderrors.ValidationError)
    (h : tools.EtcdHelper) (ctx : Context) (obj : Pod) (s : etcd.t)
    (key : string) (n : etcd.Node) :
  NamespaceKeyFunc ctx "/registry/pods" (ObjectMeta.Name (PodMeta obj)) = Ok key →
  etcd.outage s = None → wf s →
  etcd.nodes s !! key = Some n →
  ValidatePodStatusUpdate (setSpec obj (Spec (etcd.Value n))) (etcd.Value n) = [] →
  ∃ s' n',
    StatusREST.Update
      (StatusStorage (NewStorage NamespaceKeyRootFunc NamespaceKeyFunc
                        ValidatePodUpdate ValidatePodStatusUpdate h))
      ctx obj s
    = (s', ret (Some (etcd.Value n'), false, None))
    ∧ etcd.nodes s' !! key = Some n'
    ∧ Spec (etcd.Value n') = Spec (etcd.Value n)
    ∧ Status (etcd.Value n') = Status obj
    ∧ PodMeta (etcd.Value n') = PodMeta obj.
Proof.
  intros Hk Ho Hwf Hn Hval.
  unfold StatusREST.Update, NewStorage, etcdgeneric.Update. simpl. rewrite Hk.
  unfold tools.AtomicUpdate.
  erewrite (atomicUpdate_stored _ _ _ _ _ _ _ _ _ Ho Hn Hwf).
  2: { unfold etcdgeneric.updateFunc. simpl. rewrite Hval. reflexivity. }
  simpl. eexists _, (etcd.mkNode _ _). split; [reflexivity|].
  split; [apply lookup_insert_eq|]. by repeat split.
Qed.
(** ** One caller alone is the sequential [AtomicUpdate] *)

Section Alone.

Context {C : Type}.
Variables (key : string) (ignoreNotFound : bool) (tryUpdate : tools.EtcdUpdateFunc C).

Lemma alone_over fuel s th res :
  thread.outcome th = Some res →
  thread.alone fuel key ignoreNotFound tryUpdate s th = (s, th).
Proof.
  intros Hres. induction fuel as [|fuel IH]; [done|].
  destruct th as [rt cap pc]. destruct pc; simpl in *; try done; apply IH.
Qed.

Lemma alone_S fuel s th :
  thread.alone (S fuel) key ignoreNotFound tryUpdate s th
  = thread.alone fuel key ignoreNotFound tryUpdate
      (thread.step key ignoreNotFound tryUpdate s th).1
      (thread.step key ignoreNotFound tryUpdate s th).2.
Proof. simpl. by destruct (thread.step key ignoreNotFound tryUpdate s th). Qed.

(** The caller that takes all its steps in a row ends where the loop of
    [atomicUpdate] ends, with its outcome. *)
Lemma atomicUpdate_alone n c s :
  ∃ th,
    thread.alone (2 * S n) key ignoreNotFound tryUpdate s (thread.mk n c thread.Ready)
    = ((tools.atomicUpdate n key ignoreNotFound tryUpdate c s).1, th)
    ∧ thread.outcome th = Some (tools.atomicUpdate n key ignoreNotFound tryUpdate c s).2.
Proof.
  assert (Hfuel : ∀ m, (2 * S m = S (S (2 * m)))%nat) by lia.
  revert c s. induction n as [|n IH]; intros c s.
  all: rewrite Hfuel, alone_S; cbn [tools.atomicUpdate]; unfold thread.step;
    cbn [thread.at_ thread.retries thread.captured].
  all: destruct (etcd.Get key s) as [s1 res].
  all: destruct (tools.bodyAndExtractObj ignoreNotFound res) as [[obj idx]|e];
    cbn [fst snd]; [|eexists; split; [by eapply alone_over|done]].
  all: rewrite alone_S; unfold thread.step;
    cbn [thread.at_ thread.retries thread.captured].
  all: destruct (tryUpdate obj c) as [[c1 [[o ttl]|e]]|msg];
    cbn [fst snd]; [|eexists; split; [by eapply alone_over|done]..].
  all: destruct (tools.writeBack key o idx s1) as [s2 [nd|e]];
    cbn [fst snd]; [eexists; split; [by eapply alone_over|done]|].
  all: destruct (tools.raced idx e);
    cbn [fst snd]; [|eexists; split; [by eapply alone_over|done]].
  - eexists; split; [by eapply alone_over|done].
  - apply IH.
Qed.

End Alone.

Lemma run_finished k s res :
  bindings.run (replicate k 0%nat) (s, [bindings.Finished res])
  = (s, [bindings.Finished res]).
Proof. induction k as [|k IH]; [done|]. simpl. exact IH. Qed.

Lemma run_solo podID key machine annotations fuel s th s' th' res :
  thread.alone fuel key false (BindingREST.tryUpdate "" machine annotations) s th
    = (s', th') →
  thread.outcome th = None → thread.outcome th' = Some res →
  bindings.run (replicate fuel 0%nat)
    (s, [bindings.InAtomicUpdate podID key machine annotations th])
  = (s', [bindings.Finished (bindings.finish podID res)]).
Proof.
  revert s th. induction fuel as [|fuel IH]; intros s th Halone Hnone Hsome.
  { simpl in Halone. simplify_eq. }
  cbn [thread.alone] in Halone. cbn [replicate bindings.run foldl].
  unfold bindings.stepAt. cbn [snd fst lookup list_lookup bindings.stepCall].
  destruct (thread.step key false (BindingREST.tryUpdate "" machine annotations) s th)
    as [s1 th1].
  destruct (thread.outcome th1) as [res1|] eqn:Hout.
  - rewrite (alone_over _ _ _ _ _ _ _ Hout) in Halone. simplify_eq.
    apply run_finished.
  - by apply IH.
Qed.

(** [Create] is the call that runs with no other call in between. *)
Lemma Create_alone r ctx binding s :
  ∃ k,
    bindings.run (replicate k 0%nat) (s, [bindings.begin r ctx binding])
    = ((BindingREST.Create r ctx binding s).1,
       [bindings.Finished (BindingREST.Create r ctx binding s).2]).
Proof.
  unfold bindings.begin, BindingREST.Create, BindingREST.assignPod,
    BindingREST.setPodHostAndAnnotations.
  destruct (BindingREST.validate binding) as [err|]; [by exists 0%nat|].
  destruct (etcdgeneric.KeyFunc _ _ _) as [key|err]; [|by exists 0%nat].
  unfold tools.AtomicUpdate.
  set (n := tools.Retries _). set (f := BindingREST.tryUpdate _ _ _).
  destruct (atomicUpdate_alone key false f n None s) as (th & Halone & Hout).
  exists (2 * S n)%nat.
  rewrite (run_solo _ _ _ _ _ _ _ _ _ _ Halone eq_refl Hout).
  destruct (tools.atomicUpdate n key false f None s) as [s' [[fp [e|]]|msg]]; done.
Qed.

(** ** Concurrent bindings of one pod *)

Section Steps.

Variables (podID key machine : string) (annotations : gomap).

Local Abbreviation callOf th := (bindings.InAtomicUpdate podID key machine annotations th).





End Steps.

Section Race.

Variables (r : BindingREST.t) (ctx : Context) (podID key : string).
Variable bs : list Binding.
Variables (s0 : etcd.t) (n0 : etcd.Node).

Hypothesis Hkey : etcdgeneric.KeyFunc (BindingREST.store r) ctx podID = Ok key.
Hypothesis Hvalid :
  ∀ b, b ∈ bs →
    BindingREST.validate b = None ∧ ObjectMeta.Name (BindingMeta b) = podID.
Hypothesis Hn0 : etcd.nodes s0 !! key = Some n0.
Hypothesis Hun0 : unassigned (etcd.Value n0).










(** *** The calls one after the other *)





End Race.

(** ** Every call ends *)









(** ** The theorems at concrete inputs *)

(** The store of the examples keeps its versions in order. *)
Lemma example_wf pod e : wf (etcd.mk {[example.key := etcd.mkNode pod 4]} 7 e []).
Proof. apply wf_single; lia. Qed.

(** A binding with the annotation a=1 of the pod that has no host and the
    annotation b=2. *)
Lemma bind_unassigned_sets_host_and_merges_witness :
  unassigned example.web
  ∧ ∃ s' n',
      BindingREST.Create (BindingStorage example.storage) example.ctx
        (example.bindTo "web" "Node" "node-1" (Some {["a" := "1"]}))
        (example.holding example.web)
      = (s', ret (Some (mkStatus StatusSuccess), None))
      ∧ etcd.nodes s' !! example.key = Some n'
      ∧ PodSpec.Host (Spec (etcd.Value n')) = "node-1"
      ∧ PodStatus.Host (Status (etcd.Value n')) = "node-1"
      ∧ (∀ k v, mapaccess (Some {["a" := "1"]}) k = Some v →
                mapaccess (ObjectMeta.Annotations (PodMeta (etcd.Value n'))) k = Some v)
      ∧ (∀ k, mapaccess (Some {["a" := "1"]}) k = None →
              mapaccess (ObjectMeta.Annotations (PodMeta (etcd.Value n'))) k
              = mapaccess (Some {["b" := "2"]}) k)
      ∧ (∀ key', key' ≠ example.key →
           etcd.nodes s' !! key' = etcd.nodes (example.holding example.web) !! key').
Proof.
  split; [split; reflexivity|].
  apply (bind_unassigned_sets_host_and_merges
           (BindingStorage example.storage) example.ctx
           (example.bindTo "web" "Node" "node-1" (Some {["a" := "1"]}))
           (example.holding example.web) example.key (etcd.mkNode example.web 4));
    [reflexivity|reflexivity|reflexivity|apply example_wf|reflexivity
    |split; reflexivity].
Defined.

(** A binding with the annotation a=1 of the pod that has no annotation
    map. *)
Lemma bind_nil_annotations_initialized_witness :
  ObjectMeta.Annotations (PodMeta example.bare) = None
  ∧ ∃ s' n',
      BindingREST.Create (BindingStorage example.storage) example.ctx
        (example.bindTo "web" "Node" "node-1" (Some {["a" := "1"]}))
        (example.holding example.bare)
      = (s', ret (Some (mkStatus StatusSuccess), None))
      ∧ etcd.nodes s' !! example.key = Some n'
      ∧ ObjectMeta.Annotations (PodMeta (etcd.Value n')) = Some {["a" := "1"]}.
Proof.
  split; [reflexivity|].
  apply (bind_nil_annotations_initialized
           (BindingStorage example.storage) example.ctx
           (example.bindTo "web" "Node" "node-1" (Some {["a" := "1"]}))
           (example.holding example.bare) example.key (etcd.mkNode example.bare 4));
    [reflexivity|reflexivity|reflexivity|apply example_wf|reflexivity
    |split; reflexivity|reflexivity|reflexivity].
Defined.

(** The request names the host that the record has already. *)
Lemma bind_assigned_conflicts_witness :
  PodSpec.Host (Spec example.placed) = "node-1"
  ∧ ∃ s' out e,
      BindingREST.Create (BindingStorage example.storage) example.ctx
        (example.bindTo "web" "Node" "node-1" None) (example.holding example.placed)
      = (s', ret (out, Some e))
      ∧ IsConflict e = true
      ∧ etcd.nodes s' = etcd.nodes (example.holding example.placed)
      ∧ etcd.index s' = etcd.index (example.holding example.placed).
Proof.
  split; [reflexivity|].
  apply (bind_assigned_conflicts
           (BindingStorage example.storage) example.ctx
           (example.bindTo "web" "Node" "node-1" None)
           (example.holding example.placed) example.key (etcd.mkNode example.placed 4));
    [reflexivity|reflexivity|reflexivity|reflexivity|left; simpl; discriminate].
Defined.

(** A binding whose target is of kind Pod. *)
Lemma invalid_binding_rejected_before_store_witness :
  ¬ recognizedKind "Pod"
  ∧ ∃ ve,
      BindingREST.Create (BindingStorage example.storage) example.ctx
        (example.bindTo "web" "Pod" "node-1" None) (example.holding example.web)
      = (example.holding example.web,
         ret (None, Some (NewInvalid "binding" "web" [ve])))
      ∧ (¬ recognizedKind "Pod" → fielderrors.Field ve = "to.kind")
      ∧ (recognizedKind "Pod" → fielderrors.Field ve = "to.name").
Proof.
  assert (¬ recognizedKind "Pod") as Hk
    by (intros [H|[H|H]]; discriminate H).
  split; [exact Hk|].
  apply (invalid_binding_rejected_before_store
           (BindingStorage example.storage) example.ctx
           (example.bindTo "web" "Pod" "node-1" None) (example.holding example.web)).
  left. exact Hk.
Defined.

(** A binding of the pod with the empty name, whose key cannot be derived. *)
Lemma key_failure_translated_witness :
  ∃ out e,
    BindingREST.Create (BindingStorage example.storage) example.ctx
      (example.bindTo "" "Node" "node-1" None) (example.holding example.web)
    = (example.holding example.web, ret (out, Some e))
    ∧ (isStatusError (NewBadRequest "InvalidIdentifier") = true →
       e = NewBadRequest "InvalidIdentifier")
    ∧ (tools.IsEtcdNotFound (NewBadRequest "InvalidIdentifier") = true →
       e = NewNotFound "pod" "")
    ∧ (isStatusError (NewBadRequest "InvalidIdentifier") = false →
       tools.IsEtcdNotFound (NewBadRequest "InvalidIdentifier") = false →
       IsConflict e = true).
Proof.
  apply (key_failure_translated
           (BindingStorage example.storage) example.ctx
           (example.bindTo "" "Node" "node-1" None) (example.holding example.web)
           (NewBadRequest "InvalidIdentifier"));
    reflexivity.
Defined.

(** A binding whose write is carried out, and whose reply is lost. *)
Lemma transient_error_wrapped_as_conflict_witness :
  ∃ s' out,
    BindingREST.Create (BindingStorage example.storage) example.ctx
      (example.bindTo "web" "Node" "node-1" None)
      (example.timingOut example.web example.timeout)
    = (s', ret (out, Some (NewConflict "binding" "web" example.timeout))).
Proof.
  apply (transient_error_wrapped_as_conflict
           (BindingStorage example.storage) example.ctx
           (example.bindTo "web" "Node" "node-1" None)
           (example.timingOut example.web example.timeout) example.key
           (example.lostWrite example.timeout));
    try reflexivity.
  right. exists (etcd.mkNode example.web 4).
  split; [reflexivity|]. split; [by split|]. split; [simpl; lia|reflexivity].
Defined.

(** A binding to node-2 of the pod that is on node-1: the reason names
    node-1. *)
Lemma bind_failure_translated_witness :
  ∃ s1 reason,
    BindingREST.assignPod (BindingStorage example.storage) example.ctx "web" "node-2" None
      (example.holding example.placed)
    = (s1, ret (Some (NewConflict "binding" "web" (Errorf reason))))
    ∧ (quotable "node-1" = true → contains reason (quote "node-1"))
    ∧ (quotable "node-1" = true → contains reason (quote "node-1"))
    ∧ (plain "node-1" = true → contains reason "node-1")
    ∧ (plain "node-1" = true → contains reason "node-1").
Proof.
  apply (proj2 (bind_failure_translated
                  (BindingStorage example.storage) example.ctx "web" "node-2" None
                  (example.holding example.placed))
           example.key (etcd.mkNode example.placed 4));
    [reflexivity|reflexivity|reflexivity|left; simpl; discriminate].
Defined.

(** A status update of the pod on node-1 whose payload carries another
    spec. *)
Lemma status_update_preserves_spec_witness :
  Spec example.running ≠ Spec example.placed
  ∧ ∃ s' n',
      StatusREST.Update (StatusStorage example.storage) example.ctx example.running
        (example.holding example.placed)
      = (s', ret (Some (etcd.Value n'), false, None))
      ∧ etcd.nodes s' !! example.key = Some n'
      ∧ Spec (etcd.Value n') = Spec example.placed
      ∧ Status (etcd.Value n') = Status example.running
      ∧ PodMeta (etcd.Value n') = PodMeta example.running.
Proof.
  split; [discriminate|].
  apply (status_update_preserves_spec
           etcdgeneric.NamespaceKeyRootFunc (etcdgeneric.NamespaceKeyFunc example.illegal)
           example.accept example.accept (tools.mkHelper 2) example.ctx example.running
           (example.holding example.placed) example.key (etcd.mkNode example.placed 4));
    [reflexivity|reflexivity|apply example_wf|reflexivity|reflexivity].
Defined.



(** In that interleaving the second call wins, the pod is on node-2, and the
    two other calls fail with Conflict: the first after a version race and a
    second read, the third on its first read. *)
Lemma example_schedule_outcome :
  bindings.errorOf <$>
    (bindings.run example_schedule
       (example.holding example.web,
        bindings.begin (BindingStorage example.storage) example.ctx <$> example_requests)).2
  = [Some (Some (NewConflict "binding" "web"
                   (Errorf (BindingREST.alreadyAssigned
                              (bound example.web "node-2" (Some {["a" := "1"]}))))));
     Some None;
     Some (Some (NewConflict "binding" "web"
                   (Errorf (BindingREST.alreadyAssigned
                              (bound example.web "node-2" (Some {["a" := "1"]}))))))]
  ∧ etcd.Value <$>
      etcd.nodes
        (bindings.run example_schedule
           (example.holding example.web,
            bindings.begin (BindingStorage example.storage) example.ctx
              <$> example_requests)).1 !! example.key
    = Some (bound example.web "node-2" (Some {["a" := "1"]})).
Proof. split; reflexivity. Qed.

(** * Further properties of the pod storage *)

(** ** The mutation function, for any expected host *)

Lemma tryUpdate_matches oldMachine machine annotations pod finalPod :
  PodSpec.Host (Spec pod) = oldMachine → PodStatus.Host (Status pod) = oldMachine →
  BindingREST.tryUpdate oldMachine machine annotations pod finalPod
  = ret (Some (bound pod machine annotations), Ok (bound pod machine annotations, 0)).
Proof.
  intros Hs Ht. unfold BindingREST.tryUpdate.
  rewrite !bool_decide_eq_false_2 by (intros H; by apply H). simpl.
  destruct pod as [[nm ns [g|]] sp st]; simpl;
    by erewrite mergeAnnotations_union by reflexivity.
Qed.

Lemma tryUpdate_differs oldMachine machine annotations pod finalPod :
  PodSpec.Host (Spec pod) ≠ oldMachine ∨ PodStatus.Host (Status pod) ≠ oldMachine →
  BindingREST.tryUpdate oldMachine machine annotations pod finalPod
  = ret (finalPod, Err (Errorf (BindingREST.alreadyAssigned pod))).
Proof.
  intros Hd. unfold BindingREST.tryUpdate.
  destruct (decide (PodSpec.Host (Spec pod) = oldMachine)) as [Hs|Hs].
  - destruct Hd as [?|Ht]; [done|].
    rewrite (bool_decide_eq_true_2 (PodStatus.Host (Status pod) ≠ oldMachine)) by done.
    by rewrite orb_true_r.
  - by rewrite (bool_decide_eq_true_2 (PodSpec.Host (Spec pod) ≠ oldMachine)) by done.
Qed.

(** X1. The mutation function of [setPodHostAndAnnotations] is a
    compare-and-set on the two host fields: it accepts exactly the pods whose
    Spec.Host and Status.Host both are the expected host. It then returns,
    and leaves in [finalPod], the pod with both host fields set to the new
    host and the annotations of the request laid over its own, with its name,
    its namespace and the other fields of its spec and status as they were.
    Any other pod it rejects, with no object and [finalPod] as it was. *)
Theorem tryUpdate_compare_and_set
    (oldMachine machine : string) (annotations : gomap) (pod : Pod)
    (finalPod : option Pod) :
  (PodSpec.Host (Spec pod) = oldMachine ∧ PodStatus.Host (Status pod) = oldMachine →
   ∃ pod',
     BindingREST.tryUpdate oldMachine machine annotations pod finalPod
     = ret (Some pod', Ok (pod', 0))
     ∧ PodSpec.Host (Spec pod') = machine
     ∧ PodStatus.Host (Status pod') = machine
     ∧ ObjectMeta.Annotations (PodMeta pod')
       = Some (entries annotations ∪ entries (ObjectMeta.Annotations (PodMeta pod)))
     ∧ ObjectMeta.Name (PodMeta pod') = ObjectMeta.Name (PodMeta pod)
     ∧ ObjectMeta.Namespace (PodMeta pod') = ObjectMeta.Namespace (PodMeta pod)
     ∧ PodSpec.RestartPolicy (Spec pod') = PodSpec.RestartPolicy (Spec pod)
     ∧ PodSpec.DNSPolicy (Spec pod') = PodSpec.DNSPolicy (Spec pod)
     ∧ PodStatus.Phase (Status pod') = PodStatus.Phase (Status pod)
     ∧ PodStatus.Message (Status pod') = PodStatus.Message (Status pod)
     ∧ PodStatus.HostIP (Status pod') = PodStatus.HostIP (Status pod)
     ∧ PodStatus.PodIP (Status pod') = PodStatus.PodIP (Status pod))
  ∧ (PodSpec.Host (Spec pod) ≠ oldMachine ∨ PodStatus.Host (Status pod) ≠ oldMachine →
     ∃ reason,
       BindingREST.tryUpdate oldMachine machine annotations pod finalPod
       = ret (finalPod, Err (Errorf reason))).
Proof.
  split.
  - intros [Hs Ht]. rewrite (tryUpdate_matches _ _ _ _ _ Hs Ht).
    eexists. split; [reflexivity|]. by repeat split.
  - intros Hd. rewrite (tryUpdate_differs _ _ _ _ _ Hd). by eexists.
Qed.

Lemma tryUpdate_compare_and_set_witness :
  ∃ pod',
    BindingREST.tryUpdate "node-1" "node-2" (Some {["a" := "1"]}) example.placed None
    = ret (Some pod', Ok (pod', 0))
    ∧ PodSpec.Host (Spec pod') = "node-2"
    ∧ PodStatus.Host (Status pod') = "node-2"
    ∧ ObjectMeta.Annotations (PodMeta pod')
      = Some (entries (Some {["a" := "1"]})
              ∪ entries (ObjectMeta.Annotations (PodMeta example.placed)))
    ∧ ObjectMeta.Name (PodMeta pod') = "web"
    ∧ ObjectMeta.Namespace (PodMeta pod') = "default"
    ∧ PodSpec.RestartPolicy (Spec pod') = "Always"
    ∧ PodSpec.DNSPolicy (Spec pod') = "ClusterFirst"
    ∧ PodStatus.Phase (Status pod') = "Pending"
    ∧ PodStatus.Message (Status pod') = ""
    ∧ PodStatus.HostIP (Status pod') = ""
    ∧ PodStatus.PodIP (Status pod') = "".
Proof.
  apply (proj1 (tryUpdate_compare_and_set "node-1" "node-2" (Some {["a" := "1"]})
                  example.placed None)).
  split; reflexivity.
Defined.

(** The mutation function never panics. *)
Lemma tryUpdate_returns oldMachine machine annotations pod finalPod :
  ∃ res, BindingREST.tryUpdate oldMachine machine annotations pod finalPod = ret res.
Proof.
  destruct (decide (PodSpec.Host (Spec pod) = oldMachine)) as [Hs|Hs];
    [destruct (decide (PodStatus.Host (Status pod) = oldMachine)) as [Ht|Ht]|].
  - rewrite (tryUpdate_matches _ _ _ _ _ Hs Ht). by eexists.
  - rewrite (tryUpdate_differs _ _ _ _ _ (or_intror Ht)). by eexists.
  - rewrite (tryUpdate_differs _ _ _ _ _ (or_introl Hs)). by eexists.
Qed.

(** ** What [AtomicUpdate] leaves in the store *)

Lemma Get_frame key s :
  etcd.nodes (etcd.Get key s).1 = etcd.nodes s
  ∧ etcd.index (etcd.Get key s).1 = etcd.index s
  ∧ etcd.outage (etcd.Get key s).1 = etcd.outage s.
Proof.
  unfold etcd.Get. destruct (etcd.struck _ _); simpl; [done|].
  by destruct (etcd.nodes s !! key).
Qed.

Lemma Get_Ok key s n :
  (etcd.Get key s).2 = Ok n → etcd.nodes s !! key = Some n.
Proof.
  unfold etcd.Get. destruct (etcd.struck _ _); simpl; [done|].
  destruct (etcd.nodes s !! key); [|done]. simpl. by intros [= ->].
Qed.

(** What a write request leaves in the store when it is carried out. *)
Lemma Create_done key v s :
  let done :=
    match etcd.nodes s !! key with
    | Some _ => (etcd.received (etcd.CreateReq key) s,
                 Err (EtcdError etcd.EcodeNodeExist "Key already exists"))
    | None => let '(s', n) := etcd.put key v (etcd.received (etcd.CreateReq key) s)
              in (s', Ok n)
    end in
  etcd.Create key v s
  = match etcd.struck (etcd.CreateReq key) s with
    | Some f => etcd.lostReply f (etcd.received (etcd.CreateReq key) s) done
    | None => done
    end.
Proof. reflexivity. Qed.

Lemma CompareAndSwap_done key v i s :
  let done :=
    match etcd.nodes s !! key with
    | None => (etcd.received (etcd.CompareAndSwapReq key i) s,
               Err (EtcdError etcd.EcodeKeyNotFound "Key not found"))
    | Some n =>
      if etcd.ModifiedIndex n =? i
      then let '(s', n') := etcd.put key v (etcd.received (etcd.CompareAndSwapReq key i) s)
           in (s', Ok n')
      else (etcd.received (etcd.CompareAndSwapReq key i) s,
            Err (EtcdError etcd.EcodeTestFailed "Compare failed"))
    end in
  etcd.CompareAndSwap key v i s
  = match etcd.struck (etcd.CompareAndSwapReq key i) s with
    | Some f => etcd.lostReply f (etcd.received (etcd.CompareAndSwapReq key i) s) done
    | None => done
    end.
Proof. reflexivity. Qed.

(** A write leaves the records and the counter as they were, or puts the
    value under the key with the next version, also when it fails: the reply
    of a write that was carried out can be lost. *)
Lemma writeBack_frame key o i s :
  etcd.outage (tools.writeBack key o i s).1 = etcd.outage s
  ∧ ((etcd.nodes (tools.writeBack key o i s).1 = etcd.nodes s
      ∧ etcd.index (tools.writeBack key o i s).1 = etcd.index s)
     ∨ (etcd.nodes (tools.writeBack key o i s).1
        = <[key := etcd.mkNode o (etcd.index s + 1)]> (etcd.nodes s)
        ∧ etcd.index (tools.writeBack key o i s).1 = etcd.index s + 1)).
Proof.
  unfold tools.writeBack. destruct (i =? 0).
  - rewrite Create_done. cbv zeta.
    destruct (etcd.struck _ _) as [f|]; [unfold etcd.lostReply; destruct (etcd.carriedOut f)|].
    all: simpl; try (split; [done|by left]).
    all: destruct (etcd.nodes s !! key); simpl; (split; [done|]);
      first [by left|by right].
  - rewrite CompareAndSwap_done. cbv zeta.
    destruct (etcd.struck _ _) as [f|]; [unfold etcd.lostReply; destruct (etcd.carriedOut f)|].
    all: simpl; try (split; [done|by left]).
    all: destruct (etcd.nodes s !! key) as [n|]; simpl; [destruct (etcd.ModifiedIndex n =? i)|];
      simpl; (split; [done|]); first [by left|by right].
Qed.

(** A write that fails leaves every record and the counter as they were,
    unless the store carried it out and lost the reply. *)
Lemma writeBack_Err key o i s e :
  etcd.failsCleanly s = true →
  (tools.writeBack key o i s).2 = Err e →
  etcd.nodes (tools.writeBack key o i s).1 = etcd.nodes s
  ∧ etcd.index (tools.writeBack key o i s).1 = etcd.index s
  ∧ etcd.outage (tools.writeBack key o i s).1 = etcd.outage s.
Proof.
  intros Hc. unfold tools.writeBack. destruct (i =? 0).
  - rewrite Create_done. cbv zeta. unfold etcd.struck, etcd.lostReply.
    unfold etcd.failsCleanly in Hc. simpl.
    destruct (etcd.outage s) as [f|] eqn:Ho;
      [apply negb_true_iff in Hc; destruct (etcd.strikes f _)|].
    all: destruct (etcd.nodes s !! key); rewrite ?Hc; simpl; rewrite ?Ho; done.
  - rewrite CompareAndSwap_done. cbv zeta. unfold etcd.struck, etcd.lostReply.
    unfold etcd.failsCleanly in Hc. simpl.
    destruct (etcd.outage s) as [f|] eqn:Ho;
      [apply negb_true_iff in Hc; destruct (etcd.strikes f _)|].
    all: destruct (etcd.nodes s !! key) as [n|];
      [destruct (etcd.ModifiedIndex n =? i)|]; rewrite ?Hc; simpl; rewrite ?Ho; done.
Qed.

(** A write that goes through replaces the record under the key that was
    read, and no other. *)
Lemma writeBack_Ok key o s n nd :
  etcd.nodes s !! key = Some n →
  (tools.writeBack key o (etcd.ModifiedIndex n) s).2 = Ok nd →
  etcd.nodes (tools.writeBack key o (etcd.ModifiedIndex n) s).1
  = <[key := etcd.mkNode o (etcd.index s + 1)]> (etcd.nodes s)
  ∧ etcd.index (tools.writeBack key o (etcd.ModifiedIndex n) s).1 = etcd.index s + 1.
Proof.
  intros Hn. unfold tools.writeBack. destruct (etcd.ModifiedIndex n =? 0).
  - rewrite Create_done. cbv zeta.
    destruct (etcd.struck _ _) as [f|]; [unfold etcd.lostReply; by destruct (etcd.carriedOut f)|].
    simpl. by rewrite Hn.
  - rewrite CompareAndSwap_done. cbv zeta.
    destruct (etcd.struck _ _) as [f|]; [unfold etcd.lostReply; by destruct (etcd.carriedOut f)|].
    simpl. by rewrite Hn, Z.eqb_refl.
Qed.

Section AtomicUpdateFrame.

Context {C : Type}.
Variables (key : string) (tryUpdate : tools.EtcdUpdateFunc C).

(** A call that ends with an error has written nothing, when the store loses
    no reply of a request it carried out. *)
Lemma atomicUpdate_error_frame n c s s' c' e :
  etcd.failsCleanly s = true →
  tools.atomicUpdate n key false tryUpdate c s = (s', ret (c', Some e)) →
  etcd.nodes s' = etcd.nodes s ∧ etcd.index s' = etcd.index s.
Proof.
  revert c s. induction n as [|n IH]; intros c s Hc; cbn [tools.atomicUpdate].
  all: pose proof (Get_frame key s) as (Hg1 & Hg2 & Hg3).
  all: destruct (etcd.Get key s) as [s1 res]; simpl in Hg1, Hg2, Hg3.
  all: assert (Hc1 : etcd.failsCleanly s1 = true)
    by (unfold etcd.failsCleanly in *; by rewrite Hg3).
  all: destruct (tools.bodyAndExtractObj false res) as [[obj idx]|e0];
    [|intros [= <- _ _]; done].
  all: destruct (tryUpdate obj c) as [[c1 [[o ttl]|e1]]|msg];
    [|intros [= <- _ _]; done|done].
  all: pose proof (writeBack_Err key o idx s1) as Hw.
  all: destruct (tools.writeBack key o idx s1) as [s2 [nd|e2]]; [done|].
  all: destruct (Hw e2 Hc1 eq_refl) as (Hw1 & Hw2 & Hw3); simpl in Hw1, Hw2, Hw3.
  all: destruct (tools.raced idx e2); try (intros [= <- _ _]; split; congruence).
  intros H.
  assert (Hc2 : etcd.failsCleanly s2 = true)
    by (unfold etcd.failsCleanly in *; by rewrite Hw3).
  destruct (IH _ _ Hc2 H). split; congruence.
Qed.

(** A call panics only if the mutation function does. *)
Lemma atomicUpdate_returns n c s :
  (∀ obj c0, ∃ res, tryUpdate obj c0 = ret res) →
  ∃ res, (tools.atomicUpdate n key false tryUpdate c s).2 = ret res.
Proof.
  intros Hf. revert c s. induction n as [|n IH]; intros c s; cbn [tools.atomicUpdate].
  all: destruct (etcd.Get key s) as [s1 res].
  all: destruct (tools.bodyAndExtractObj false res) as [[obj idx]|e0]; [|by eexists].
  all: destruct (Hf obj c) as ([c1 [[o ttl]|e1]] & ->); [|by eexists].
  all: destruct (tools.writeBack key o idx s1) as [s2 [nd|e2]]; [by eexists|].
  all: destruct (tools.raced idx e2); [|by eexists].
  - by eexists.
  - apply IH.
Qed.

End AtomicUpdateFrame.

Section BindFrame.

Variables (key machine : string) (annotations : gomap).
Hypothesis Hmachine : machine ≠ "".

(** No binding of a pod that has a host goes through. *)
Lemma atomicUpdate_bound_fails n c s nd s' c' :
  etcd.nodes s !! key = Some nd → ¬ unassigned (etcd.Value nd) →
  tools.atomicUpdate n key false (BindingREST.tryUpdate "" machine annotations) c s
  ≠ (s', ret (c', None)).
Proof.
  intros Hn Hna.
  destruct (etcd.struck (etcd.GetReq key) s) as [f|] eqn:Hg.
  - by rewrite (atomicUpdate_struck _ _ _ _ _ _ Hg).
  - destruct n; cbn [tools.atomicUpdate]; rewrite (Get_answered _ _ _ Hg Hn); simpl;
      by rewrite (tryUpdate_assigned machine annotations _ c Hna).
Qed.

(** A binding that goes through has read a pod without a host under the key,
    and has replaced that record by the bound pod, and no other, also after
    writes that failed. *)
Lemma atomicUpdate_bind_success n c s s' c' :
  tools.atomicUpdate n key false (BindingREST.tryUpdate "" machine annotations) c s
  = (s', ret (c', None)) →
  ∃ node,
    etcd.nodes s !! key = Some node
    ∧ unassigned (etcd.Value node)
    ∧ etcd.nodes s'
      = <[key := etcd.mkNode (bound (etcd.Value node) machine annotations)
                   (etcd.index s + 1)]> (etcd.nodes s)
    ∧ etcd.index s' = etcd.index s + 1.
Proof.
  revert c s. induction n as [|n IH]; intros c s; cbn [tools.atomicUpdate].
  all: pose proof (Get_frame key s) as (Hg1 & Hg2 & _).
  all: pose proof (Get_Ok key s) as HgOk.
  all: destruct (etcd.Get key s) as [s1 res]; simpl in Hg1, Hg2, HgOk.
  all: destruct res as [node|e0]; [|done]; simpl.
  all: pose proof (HgOk node eq_refl) as Hnode.
  all: destruct (decide (unassigned (etcd.Value node))) as [Hun|Hna];
    [rewrite (tryUpdate_unassigned machine annotations _ c Hun)
    |by rewrite (tryUpdate_assigned machine annotations _ c Hna)].
  all: assert (etcd.nodes s1 !! key = Some node) as Hnode1 by by rewrite Hg1.
  all: pose proof (writeBack_Ok key (bound (etcd.Value node) machine annotations) s1 node)
    as Hok.
  all: pose proof (writeBack_frame key (bound (etcd.Value node) machine annotations)
                     (etcd.ModifiedIndex node) s1) as [_ Hfr].
  all: destruct (tools.writeBack key _ (etcd.ModifiedIndex node) s1) as [s2 [nd|e2]].
  1, 3: intros [= <- <-]; destruct (Hok nd Hnode1 eq_refl) as [Hn' Hi']; simpl in *;
    exists node; rewrite Hn', Hi', Hg1, Hg2; done.
  all: destruct (tools.raced (etcd.ModifiedIndex node) e2); [|done].
  - done.
  - simpl in Hfr. intros H. destruct Hfr as [[Hw1 Hw2]|[Hw1 _]].
    + destruct (IH _ _ H) as (node' & Hn' & Hun' & Hs' & Hi').
      exists node'. rewrite Hw1, Hg1 in Hn', Hs'. rewrite Hw2, Hg2 in Hs', Hi'. done.
    + exfalso. refine (atomicUpdate_bound_fails n _ s2 _ _ _ _ _ H).
      * rewrite Hw1. apply lookup_insert_eq.
      * by apply bound_assigned.
Qed.

End BindFrame.

(** ** [Create], whatever the store holds *)

Lemma validate_Some binding err :
  BindingREST.validate binding = Some err → isStatusError err = true.
Proof.
  unfold BindingREST.validate.
  destruct (negb _ && _); [by intros [= <-]|].
  destruct (_ =? _)%nat; [by intros [= <-]|done].
Qed.

Lemma validate_valid binding :
  recognizedKind (ObjectReference.Kind (Target binding)) →
  ObjectReference.Name (Target binding) ≠ "" →
  BindingREST.validate binding = None.
Proof.
  intros Hk Hn. unfold BindingREST.validate. rewrite !length_zero.
  rewrite (bool_decide_eq_false_2 _ Hn).
  destruct Hk as [-> | [-> | ->]]; reflexivity.
Qed.

Lemma isStatusError_interpret podID err :
  isStatusError (BindingREST.interpret podID err) = true.
Proof.
  unfold BindingREST.interpret.
  by destruct (isStatusError (etcderr.InterpretUpdateError _ _ _)) eqn:H.
Qed.

(** What [Create] returns for a binding that passes, in terms of the
    [AtomicUpdate] it makes. *)
Lemma Create_AtomicUpdate r ctx binding s key :
  BindingREST.validate binding = None →
  etcdgeneric.KeyFunc (BindingREST.store r) ctx (ObjectMeta.Name (BindingMeta binding))
    = Ok key →
  BindingREST.Create r ctx binding s
  = ((tools.atomicUpdate (tools.Retries (etcdgeneric.Helper (BindingREST.store r))) key
        false
        (BindingREST.tryUpdate "" (ObjectReference.Name (Target binding))
           (ObjectMeta.Annotations (BindingMeta binding))) None s).1,
     bindings.finish (ObjectMeta.Name (BindingMeta binding))
       (tools.atomicUpdate (tools.Retries (etcdgeneric.Helper (BindingREST.store r))) key
          false
          (BindingREST.tryUpdate "" (ObjectReference.Name (Target binding))
             (ObjectMeta.Annotations (BindingMeta binding))) None s).2).
Proof.
  intros Hv Hk. unfold BindingREST.Create, BindingREST.assignPod,
    BindingREST.setPodHostAndAnnotations, tools.AtomicUpdate.
  rewrite Hv, Hk.
  by destruct (tools.atomicUpdate _ _ _ _ _ _) as [s' [[fp [e|]]|msg]].
Qed.

Lemma Create_keyError r ctx binding s err :
  BindingREST.validate binding = None →
  etcdgeneric.KeyFunc (BindingREST.store r) ctx (ObjectMeta.Name (BindingMeta binding))
    = Err err →
  BindingREST.Create r ctx binding s
  = (s, ret (Some (mkStatus StatusSuccess),
             Some (BindingREST.interpret (ObjectMeta.Name (BindingMeta binding)) err))).
Proof.
  intros Hv Hk. by rewrite (Create_error _ _ _ _ _ _ Hv (assignPod_keyError _ _ _ _ _ _ _ Hk)).
Qed.

(** X2. [Create] never panics, whatever the registry, the binding and the
    store are: no pod and no request make the mutation function write to a
    nil map. It returns the success status exactly for the bindings that name
    a recognized kind and a target, also when it returns an error with it,
    and no object for the others. *)
Theorem Create_returns_status_iff_valid
    (r : BindingREST.t) (ctx : Context) (binding : Binding) (s : etcd.t) :
  ∃ out err,
    (BindingREST.Create r ctx binding s).2 = ret (out, err)
    ∧ (recognizedKind (ObjectReference.Kind (Target binding))
       ∧ ObjectReference.Name (Target binding) ≠ "" →
       out = Some (mkStatus StatusSuccess))
    ∧ (¬ (recognizedKind (ObjectReference.Kind (Target binding))
          ∧ ObjectReference.Name (Target binding) ≠ "") →
       out = None ∧ is_Some err).
Proof.
  destruct (BindingREST.validate binding) as [e|] eqn:Hv.
  - unfold BindingREST.Create. rewrite Hv. eexists _, _. split; [reflexivity|].
    split; [|by eauto].
    intros [Hk Hn]. by rewrite (validate_valid _ Hk Hn) in Hv.
  - destruct (validate_None _ Hv) as [Hk Hn].
    destruct (etcdgeneric.KeyFunc (BindingREST.store r) ctx
                (ObjectMeta.Name (BindingMeta binding))) as [key|e] eqn:Hkey.
    + rewrite (Create_AtomicUpdate _ _ _ _ _ Hv Hkey). simpl.
      destruct (atomicUpdate_returns key
                  (BindingREST.tryUpdate "" (ObjectReference.Name (Target binding))
                     (ObjectMeta.Annotations (BindingMeta binding)))
                  (tools.Retries (etcdgeneric.Helper (BindingREST.store r))) None s
                  (tryUpdate_returns _ _ _)) as ([fp err] & ->).
      eexists _, _. split; [reflexivity|]. split; [done|]. intros H. by destruct H.
    + rewrite (Create_keyError _ _ _ _ _ Hv Hkey). eexists _, _.
      split; [reflexivity|]. split; [done|]. intros H. by destruct H.
Qed.

(** X3. Every error that [Create] returns is a status error: an error of the
    validation, of the key function or of the store never reaches the caller
    as the plain or etcd error it was. *)
Theorem Create_errors_are_status_errors
    (r : BindingREST.t) (ctx : Context) (binding : Binding) (s s' : etcd.t)
    (out : option ApiStatus) (e : error) :
  BindingREST.Create r ctx binding s = (s', ret (out, Some e)) →
  isStatusError e = true.
Proof.
  destruct (BindingREST.validate binding) as [e0|] eqn:Hv.
  - unfold BindingREST.Create. rewrite Hv. intros [= _ _ <-]. by eapply validate_Some.
  - destruct (etcdgeneric.KeyFunc (BindingREST.store r) ctx
                (ObjectMeta.Name (BindingMeta binding))) as [key|e0] eqn:Hkey.
    + rewrite (Create_AtomicUpdate _ _ _ _ _ Hv Hkey).
      destruct (tools.atomicUpdate _ _ _ _ _ _) as [s1 [[fp [e1|]]|msg]]; simpl; try done.
      intros [= _ _ <-]. apply isStatusError_interpret.
    + rewrite (Create_keyError _ _ _ _ _ Hv Hkey). intros [= _ _ <-].
      apply isStatusError_interpret.
Qed.

Lemma Create_errors_are_status_errors_witness :
  isStatusError (NewConflict "binding" "web" example.timeout) = true.
Proof.
  apply (Create_errors_are_status_errors
           (BindingStorage example.storage) example.ctx
           (example.bindTo "web" "Node" "node-1" None)
           (example.unreachable example.web example.timeout)
           (etcd.received (etcd.GetReq example.key)
              (example.unreachable example.web example.timeout))
           (Some (mkStatus StatusSuccess))).
  reflexivity.
Defined.

(** X4. A [Create] that returns an error has changed no stored record and
    has not moved the version counter of the store, whatever made it fail,
    as long as the store loses no reply of a request that it carried out.
    When it does, the error tells the caller nothing about the record, as
    [timed_out_write_has_bound] shows. *)
Theorem Create_failure_leaves_store
    (r : BindingREST.t) (ctx : Context) (binding : Binding) (s s' : etcd.t)
    (out : option ApiStatus) (e : error) :
  etcd.failsCleanly s = true →
  BindingREST.Create r ctx binding s = (s', ret (out, Some e)) →
  etcd.nodes s' = etcd.nodes s ∧ etcd.index s' = etcd.index s.
Proof.
  intros Hc.
  destruct (BindingREST.validate binding) as [e0|] eqn:Hv.
  - unfold BindingREST.Create. rewrite Hv. by intros [= <- _ _].
  - destruct (etcdgeneric.KeyFunc (BindingREST.store r) ctx
                (ObjectMeta.Name (BindingMeta binding))) as [key|e0] eqn:Hkey.
    + rewrite (Create_AtomicUpdate _ _ _ _ _ Hv Hkey).
      destruct (tools.atomicUpdate _ _ _ _ _ _) as [s1 [[fp [e1|]]|msg]] eqn:Ha;
        simpl; try done.
      intros [= <- _]. by eapply atomicUpdate_error_frame.
    + rewrite (Create_keyError _ _ _ _ _ Hv Hkey). by intros [= <- _ _].
Qed.

(** A binding while the store cannot be reached. *)
Lemma Create_failure_leaves_store_witness :
  etcd.nodes (etcd.received (etcd.GetReq example.key)
                (example.unreachable example.web example.timeout))
  = etcd.nodes (example.unreachable example.web example.timeout)
  ∧ etcd.index (etcd.received (etcd.GetReq example.key)
                  (example.unreachable example.web example.timeout))
    = etcd.index (example.unreachable example.web example.timeout).
Proof.
  apply (Create_failure_leaves_store
           (BindingStorage example.storage) example.ctx
           (example.bindTo "web" "Node" "node-1" None)
           (example.unreachable example.web example.timeout)
           (etcd.received (etcd.GetReq example.key)
              (example.unreachable example.web example.timeout))
           (Some (mkStatus StatusSuccess))
           (NewConflict "binding" "web" example.timeout));
    reflexivity.
Defined.

(** X5. A [Create] that returns no error never overwrites an assignment and
    never touches another record: the binding named a recognized kind and a
    target, the key of the pod was derived, the store held under it a pod
    with both host fields empty, and the store differs from the one before
    in that record only, which is the old one bound to the target. *)
Theorem Create_success_binds_unassigned_only
    (r : BindingREST.t) (ctx : Context) (binding : Binding) (s s' : etcd.t)
    (out : option ApiStatus) :
  BindingREST.Create r ctx binding s = (s', ret (out, None)) →
  recognizedKind (ObjectReference.Kind (Target binding))
  ∧ ObjectReference.Name (Target binding) ≠ ""
  ∧ ∃ key n,
      etcdgeneric.KeyFunc (BindingREST.store r) ctx (ObjectMeta.Name (BindingMeta binding))
        = Ok key
      ∧ etcd.nodes s !! key = Some n
      ∧ unassigned (etcd.Value n)
      ∧ etcd.nodes s'
        = <[key := etcd.mkNode
                     (bound (etcd.Value n) (ObjectReference.Name (Target binding))
                        (ObjectMeta.Annotations (BindingMeta binding)))
                     (etcd.index s + 1)]> (etcd.nodes s).
Proof.
  destruct (BindingREST.validate binding) as [e0|] eqn:Hv.
  { unfold BindingREST.Create. by rewrite Hv. }
  destruct (validate_None _ Hv) as [Hk Hn]. intros HC. split; [done|]. split; [done|].
  destruct (etcdgeneric.KeyFunc (BindingREST.store r) ctx
              (ObjectMeta.Name (BindingMeta binding))) as [key|e0] eqn:Hkey.
  2: { by rewrite (Create_keyError _ _ _ _ _ Hv Hkey) in HC. }
  rewrite (Create_AtomicUpdate _ _ _ _ _ Hv Hkey) in HC.
  destruct (tools.atomicUpdate _ _ _ _ _ _) as [s1 [[fp [e1|]]|msg]] eqn:Ha;
    simpl in HC; try done.
  injection HC as <- _.
  destruct (atomicUpdate_bind_success _ _ _ Hn _ _ _ _ _ Ha) as (n & Hnode & Hun & Hs & _).
  by exists key, n.
Qed.

Lemma Create_success_binds_unassigned_only_witness :
  recognizedKind "Node"
  ∧ "node-1" ≠ ""
  ∧ ∃ key n,
      etcdgeneric.KeyFunc (BindingREST.store (BindingStorage example.storage)) example.ctx
        "web" = Ok key
      ∧ etcd.nodes (example.holding example.web) !! key = Some n
      ∧ unassigned (etcd.Value n)
      ∧ etcd.nodes
          (BindingREST.Create (BindingStorage example.storage) example.ctx
             (example.bindTo "web" "Node" "node-1" None) (example.holding example.web)).1
        = <[key := etcd.mkNode (bound (etcd.Value n) "node-1" None)
                     (etcd.index (example.holding example.web) + 1)]>
            (etcd.nodes (example.holding example.web)).
Proof.
  apply (Create_success_binds_unassigned_only
           (BindingStorage example.storage) example.ctx
           (example.bindTo "web" "Node" "node-1" None) (example.holding example.web)
           (BindingREST.Create (BindingStorage example.storage) example.ctx
              (example.bindTo "web" "Node" "node-1" None) (example.holding example.web)).1
           (Some (mkStatus StatusSuccess))).
  reflexivity.
Defined.

(** ** Bindings, one after the other *)

(** X6. Binding is once and for all: after a [Create] that bound a pod, every
    later valid [Create] for that pod fails with Conflict, whatever target it
    names, and the record stays as the first binding left it. *)
Theorem second_binding_conflicts
    (r : BindingREST.t) (ctx : Context) (first second : Binding) (s : etcd.t)
    (key : string) (n : etcd.Node) :
  BindingREST.validate first = None →
  BindingREST.validate second = None →
  ObjectMeta.Name (BindingMeta second) = ObjectMeta.Name (BindingMeta first) →
  etcdgeneric.KeyFunc (BindingREST.store r) ctx (ObjectMeta.Name (BindingMeta first))
    = Ok key →
  etcd.outage s = None → wf s →
  etcd.nodes s !! key = Some n →
  unassigned (etcd.Value n) →
  ∃ s1 s2 out e n2,
    BindingREST.Create r ctx first s = (s1, ret (Some (mkStatus StatusSuccess), None))
    ∧ BindingREST.Create r ctx second s1 = (s2, ret (out, Some e))
    ∧ IsConflict e = true
    ∧ etcd.nodes s2 = etcd.nodes s1
    ∧ etcd.nodes s2 !! key = Some n2
    ∧ PodSpec.Host (Spec (etcd.Value n2)) = ObjectReference.Name (Target first)
    ∧ PodStatus.Host (Status (etcd.Value n2)) = ObjectReference.Name (Target first).
Proof.
  intros Hv1 Hv2 Hname Hk Ho Hwf Hn Hun.
  pose proof (Create_error _ _ _ _ _ _ Hv1
                (assignPod_unassigned _ _ _ _ _ _ _ _ Hk Ho Hwf Hn Hun)) as H1.
  set (s1 := etcd.mk _ _ _ _) in H1.
  assert (etcd.nodes s1 !! key
          = Some (etcd.mkNode
                    (bound (etcd.Value n) (ObjectReference.Name (Target first))
                       (ObjectMeta.Annotations (BindingMeta first)))
                    (etcd.index s + 1))) as Hn1 by apply lookup_insert_eq.
  assert (¬ unassigned
            (etcd.Value
               (etcd.mkNode
                  (bound (etcd.Value n) (ObjectReference.Name (Target first))
                     (ObjectMeta.Annotations (BindingMeta first)))
                  (etcd.index s + 1)))) as Hna.
  { apply bound_assigned. by destruct (validate_None _ Hv1). }
  rewrite <- Hname in Hk.
  pose proof (Create_error _ _ _ _ _ _ Hv2
                (assignPod_assigned _ _ _ _ _ s1 _ _ Hk eq_refl Hn1 Hna)) as H2.
  eexists s1, _, _, _, _. split; [exact H1|]. split; [exact H2|].
  split; [done|]. split; [done|]. split; [exact Hn1|]. done.
Qed.

Lemma second_binding_conflicts_witness :
  ∃ s1 s2 out e n2,
    BindingREST.Create (BindingStorage example.storage) example.ctx
      (example.bindTo "web" "Node" "node-1" None) (example.holding example.web)
    = (s1, ret (Some (mkStatus StatusSuccess), None))
    ∧ BindingREST.Create (BindingStorage example.storage) example.ctx
        (example.bindTo "web" "Minion" "node-1" (Some {["a" := "1"]})) s1
      = (s2, ret (out, Some e))
    ∧ IsConflict e = true
    ∧ etcd.nodes s2 = etcd.nodes s1
    ∧ etcd.nodes s2 !! example.key = Some n2
    ∧ PodSpec.Host (Spec (etcd.Value n2)) = "node-1"
    ∧ PodStatus.Host (Status (etcd.Value n2)) = "node-1".
Proof.
  apply (second_binding_conflicts
           (BindingStorage example.storage) example.ctx
           (example.bindTo "web" "Node" "node-1" None)
           (example.bindTo "web" "Minion" "node-1" (Some {["a" := "1"]}))
           (example.holding example.web) example.key (etcd.mkNode example.web 4));
    [reflexivity|reflexivity|reflexivity|reflexivity|reflexivity|apply example_wf
    |reflexivity|split; reflexivity].
Defined.

(** X7. Binding never creates a pod: a valid [Create] for a pod that the
    store does not hold fails with NotFound for that pod, after one read and
    no write, and the key stays without a record. *)
Theorem binding_missing_pod_not_found
    (r : BindingREST.t) (ctx : Context) (binding : Binding) (s : etcd.t) (key : string) :
  BindingREST.validate binding = None →
  etcdgeneric.KeyFunc (BindingREST.store r) ctx (ObjectMeta.Name (BindingMeta binding))
    = Ok key →
  etcd.outage s = None →
  etcd.nodes s !! key = None →
  ∃ s' out,
    BindingREST.Create r ctx binding s
    = (s', ret (out, Some (NewNotFound "pod" (ObjectMeta.Name (BindingMeta binding)))))
    ∧ etcd.nodes s' = etcd.nodes s
    ∧ etcd.nodes s' !! key = None
    ∧ etcd.requests s' = (etcd.requests s ++ [etcd.GetReq key])%list.
Proof.
  intros Hv Hk Ho Hn.
  rewrite (Create_error _ _ _ _ _ _ Hv (assignPod_missing _ _ _ _ _ _ _ Hk Ho Hn)).
  by eexists _, _.
Qed.

Lemma binding_missing_pod_not_found_witness :
  ∃ s' out,
    BindingREST.Create (BindingStorage example.storage) example.ctx
      (example.bindTo "db" "Node" "node-1" None) (example.holding example.web)
    = (s', ret (out, Some (NewNotFound "pod" "db")))
    ∧ etcd.nodes s' = etcd.nodes (example.holding example.web)
    ∧ etcd.nodes s' !! "/registry/pods/default/db" = None
    ∧ etcd.requests s'
      = (etcd.requests (example.holding example.web)
         ++ [etcd.GetReq "/registry/pods/default/db"])%list.
Proof.
  apply (binding_missing_pod_not_found
           (BindingStorage example.storage) example.ctx
           (example.bindTo "db" "Node" "node-1" None) (example.holding example.web)
           "/registry/pods/default/db");
    reflexivity.
Defined.

(** X8. [assignPod] itself does not refuse the empty machine: on a pod
    without a host it succeeds, merges the annotations, and leaves the pod
    without a host, so that the pod can be bound again. Only the check of the
    target name in [Create] keeps the empty machine from the store. *)
Theorem assignPod_empty_machine_leaves_unassigned
    (r : BindingREST.t) (ctx : Context) (podID : string) (annotations : gomap)
    (s : etcd.t) (key : string) (n : etcd.Node) :
  etcdgeneric.KeyFunc (BindingREST.store r) ctx podID = Ok key →
  etcd.outage s = None → wf s →
  etcd.nodes s !! key = Some n →
  unassigned (etcd.Value n) →
  ∃ s' n',
    BindingREST.assignPod r ctx podID "" annotations s = (s', ret None)
    ∧ etcd.nodes s' !! key = Some n'
    ∧ unassigned (etcd.Value n')
    ∧ ObjectMeta.Annotations (PodMeta (etcd.Value n'))
      = Some (entries annotations
              ∪ entries (ObjectMeta.Annotations (PodMeta (etcd.Value n))))
    ∧ etcd.ModifiedIndex n' = etcd.index s + 1.
Proof.
  intros Hk Ho Hwf Hn Hun.
  rewrite (assignPod_unassigned _ _ _ _ _ _ _ _ Hk Ho Hwf Hn Hun).
  eexists _, _. split; [reflexivity|]. split; [apply lookup_insert_eq|]. by repeat split.
Qed.

Lemma assignPod_empty_machine_leaves_unassigned_witness :
  ∃ s' n',
    BindingREST.assignPod (BindingStorage example.storage) example.ctx "web" ""
      (Some {["a" := "1"]}) (example.holding example.web)
    = (s', ret None)
    ∧ etcd.nodes s' !! example.key = Some n'
    ∧ unassigned (etcd.Value n')
    ∧ ObjectMeta.Annotations (PodMeta (etcd.Value n'))
      = Some (entries (Some {["a" := "1"]})
              ∪ entries (ObjectMeta.Annotations (PodMeta example.web)))
    ∧ etcd.ModifiedIndex n' = etcd.index (example.holding example.web) + 1.
Proof.
  apply (assignPod_empty_machine_leaves_unassigned
           (BindingStorage example.storage) example.ctx "web" (Some {["a" := "1"]})
           (example.holding example.web) example.key (etcd.mkNode example.web 4));
    [reflexivity|reflexivity|apply example_wf|reflexivity|split; reflexivity].
Defined.

(** ** The surfaces of one storage *)

(** The state of the store after an update through the status surface. *)
Lemma StatusREST_Update_stored
    (NamespaceKeyRootFunc : Context → string → string)
    (NamespaceKeyFunc : Context → string → string → result string)
    (ValidatePodUpdate ValidatePodStatusUpdate :
       Pod → Pod → list fielderrors.ValidationError)
    (h : tools.EtcdHelper) (ctx : Context) (obj : Pod) (s : etcd.t)
    (key : string) (n : etcd.Node) :
  NamespaceKeyFunc ctx "/registry/pods" (ObjectMeta.Name (PodMeta obj)) = Ok key →
  etcd.outage s = None → wf s →
  etcd.nodes s !! key = Some n →
  ValidatePodStatusUpdate (setSpec obj (Spec (etcd.Value n))) (etcd.Value n) = [] →
  StatusREST.Update
    (StatusStorage (NewStorage NamespaceKeyRootFunc NamespaceKeyFunc
                      ValidatePodUpdate ValidatePodStatusUpdate h))
    ctx obj s
  = (etcd.mk
       (<[key := etcd.mkNode (setSpec obj (Spec (etcd.Value n))) (etcd.index s + 1)]>
          (etcd.nodes s))
       (etcd.index s + 1) None
       (etcd.requests s
          ++ [etcd.GetReq key; etcd.CompareAndSwapReq key (etcd.ModifiedIndex n)]),
     ret (Some (setSpec obj (Spec (etcd.Value n))), false, None)).
Proof.
  intros Hk Ho Hwf Hn Hval.
  unfold StatusREST.Update, NewStorage, etcdgeneric.Update. simpl. rewrite Hk.
  unfold tools.AtomicUpdate.
  erewrite (atomicUpdate_stored _ _ _ _ _ _ _ _ _ Ho Hn Hwf).
  2: { unfold etcdgeneric.updateFunc. simpl. rewrite Hval. reflexivity. }
  reflexivity.
Qed.

(** X9. The status surface cannot undo a binding. The binding and the status
    surface of one storage address the same record, and after an accepted
    status update of a pod whose Spec.Host is set, whatever status the
    payload carries, an empty Status.Host included, every valid [Create] for
    the pod still fails with Conflict. *)
Theorem status_update_keeps_pod_bound
    (NamespaceKeyRootFunc : Context → string → string)
    (NamespaceKeyFunc : Context → string → string → result string)
    (ValidatePodUpdate ValidatePodStatusUpdate :
       Pod → Pod → list fielderrors.ValidationError)
    (h : tools.EtcdHelper) (ctx : Context) (obj : Pod) (binding : Binding)
    (s : etcd.t) (key : string) (n : etcd.Node) :
  NamespaceKeyFunc ctx "/registry/pods" (ObjectMeta.Name (PodMeta obj)) = Ok key →
  etcd.outage s = None → wf s →
  etcd.nodes s !! key = Some n →
  PodSpec.Host (Spec (etcd.Value n)) ≠ "" →
  ValidatePodStatusUpdate (setSpec obj (Spec (etcd.Value n))) (etcd.Value n) = [] →
  BindingREST.validate binding = None →
  ObjectMeta.Name (BindingMeta binding) = ObjectMeta.Name (PodMeta obj) →
  let storage :=
    NewStorage NamespaceKeyRootFunc NamespaceKeyFunc
      ValidatePodUpdate ValidatePodStatusUpdate h in
  ∃ s1 updated s2 out e,
    StatusREST.Update (StatusStorage storage) ctx obj s
      = (s1, ret (Some updated, false, None))
    ∧ Status updated = Status obj
    ∧ BindingREST.Create (BindingStorage storage) ctx binding s1 = (s2, ret (out, Some e))
    ∧ IsConflict e = true
    ∧ etcd.nodes s2 = etcd.nodes s1.
Proof.
  intros Hk Ho Hwf Hn Hhost Hval Hv Hname storage. unfold storage.
  pose proof (StatusREST_Update_stored NamespaceKeyRootFunc _ ValidatePodUpdate _ h
                _ _ _ _ _ Hk Ho Hwf Hn Hval) as H1.
  set (s1 := etcd.mk _ _ _ _) in H1.
  assert (etcd.nodes s1 !! key
          = Some (etcd.mkNode (setSpec obj (Spec (etcd.Value n))) (etcd.index s + 1)))
    as Hn1 by apply lookup_insert_eq.
  assert (¬ unassigned
            (etcd.Value (etcd.mkNode (setSpec obj (Spec (etcd.Value n)))
                           (etcd.index s + 1)))) as Hna.
  { intros [Hs _]. by apply Hhost. }
  rewrite <- Hname in Hk.
  pose proof (Create_error _ _ _ _ _ _ Hv
                (assignPod_assigned
                   (BindingStorage (NewStorage NamespaceKeyRootFunc NamespaceKeyFunc
                                      ValidatePodUpdate ValidatePodStatusUpdate h))
                   ctx _ _ _ s1 _ _ Hk eq_refl Hn1 Hna)) as H2.
  eexists s1, _, _, _, _. split; [exact H1|]. split; [done|]. split; [exact H2|].
  by split.
Qed.

Lemma status_update_keeps_pod_bound_witness :
  PodStatus.Host (Status example.bare) = ""
  ∧ ∃ s1 updated s2 out e,
      StatusREST.Update (StatusStorage example.storage) example.ctx example.bare
        (example.holding example.placed)
        = (s1, ret (Some updated, false, None))
      ∧ Status updated = Status example.bare
      ∧ BindingREST.Create (BindingStorage example.storage) example.ctx
          (example.bindTo "web" "Node" "node-2" None) s1
        = (s2, ret (out, Some e))
      ∧ IsConflict e = true
      ∧ etcd.nodes s2 = etcd.nodes s1.
Proof.
  split; [reflexivity|].
  apply (status_update_keeps_pod_bound
           etcdgeneric.NamespaceKeyRootFunc (etcdgeneric.NamespaceKeyFunc example.illegal)
           example.accept example.accept (tools.mkHelper 2) example.ctx example.bare
           (example.bindTo "web" "Node" "node-2" None)
           (example.holding example.placed) example.key (etcd.mkNode example.placed 4));
    [reflexivity|reflexivity|apply example_wf|reflexivity|discriminate
    |reflexivity|reflexivity|reflexivity].
Defined.

(** * The flushing writer *)

Lemma New_Write_flusher {W : Type} (w : flushwriter.Writer W) flush p st :
  flushwriter.Flush w = Some flush →
  flushwriter.Write (flushwriter.New w) p st
  = (let '(st1, (n, err)) := flushwriter.Write w p st in
     match err with
     | Some _ => (st1, (n, err))
     | None => (flush st1, (n, err))
     end).
Proof.
  intros Hf. unfold flushwriter.New. rewrite Hf. simpl. unfold flushwriter.fwWrite. simpl.
  by destruct (flushwriter.Write w p st) as [st1 [n [e|]]].
Qed.

Lemma New_Write_plain {W : Type} (w : flushwriter.Writer W) p st :
  flushwriter.Flush w = None →
  flushwriter.Write (flushwriter.New w) p st = flushwriter.Write w p st.
Proof.
  intros Hf. unfold flushwriter.New. rewrite Hf. simpl. unfold flushwriter.fwWrite. simpl.
  by destruct (flushwriter.Write w p st) as [st1 [n [e|]]].
Qed.

(** X10. What a writer wrapped by [New] is asked to do, over any sequence of
    writes: it is given every payload once, unchanged and in order; each of
    its results is returned to the caller as it is; when it is a flusher it
    is flushed once right after every write without error and never after a
    write that failed, and when it is none it is never flushed. *)
Theorem flushWriter_trace {W : Type} (w : flushwriter.Writer W)
    (ps : list (list Byte.byte)) (st : W) (log : list flushwriter.event) :
  ∃ st' log' rs,
    flushwriter.writes (flushwriter.New (flushwriter.observed w)) ps (st, log)
    = ((st', log'), rs)
    ∧ length rs = length ps
    ∧ log' = (log ++ flushwriter.traceOf (isFlusher w) ps rs)%list.
Proof.
  revert st log. induction ps as [|p ps IH]; intros st log.
  { eexists _, _, _. split; [reflexivity|]. split; [done|]. simpl. by rewrite app_nil_r. }
  cbn [flushwriter.writes].
  assert (∃ st1 n err,
            flushwriter.Write (flushwriter.New (flushwriter.observed w)) p (st, log)
            = ((st1, (log ++ flushwriter.Written p n err
                          :: (if isFlusher w && bool_decide (err = None)
                              then [flushwriter.Flushed] else []))%list), (n, err)))
    as (st1 & n & err & ->).
  { unfold isFlusher. destruct (flushwriter.Flush w) as [flush|] eqn:Hf.
    - erewrite New_Write_flusher by (unfold flushwriter.observed; simpl; by rewrite Hf).
      simpl. destruct (flushwriter.Write w p st) as [st1 [n [e|]]]; simpl.
      + by exists st1, n, (Some e).
      + exists (flush st1), n, None. simpl. by rewrite <- (assoc_L (++)).
    - rewrite New_Write_plain by (unfold flushwriter.observed; simpl; by rewrite Hf).
      simpl. destruct (flushwriter.Write w p st) as [st1 [n err]].
      exists st1, n, err. simpl. reflexivity. }
  destruct (IH st1 (log ++ flushwriter.Written p n err
                      :: (if isFlusher w && bool_decide (err = None)
                          then [flushwriter.Flushed] else []))%list)
    as (st' & log' & rs & -> & Hlen & ->).
  eexists _, _, _. split; [reflexivity|]. split; [simpl; by rewrite Hlen|].
  simpl. by rewrite <- (assoc_L (++)).
Qed.

(** X11. [New] adds nothing to a writer that is no flusher: a write through
    the wrapper is the write of the writer, in what it returns and in what it
    does. The writer that [New] returns is itself no flusher, so that to wrap
    a writer twice is to wrap it once. *)
Theorem New_transparent_without_flusher {W : Type} (w : flushwriter.Writer W)
    (p : list Byte.byte) (st : W) :
  (flushwriter.Flush w = None →
   flushwriter.Write (flushwriter.New w) p st = flushwriter.Write w p st)
  ∧ flushwriter.Flush (flushwriter.New w) = None
  ∧ flushwriter.Write (flushwriter.New (flushwriter.New w)) p st
    = flushwriter.Write (flushwriter.New w) p st.
Proof.
  split; [apply New_Write_plain|]. split; [reflexivity|]. by apply New_Write_plain.
Qed.

Lemma New_transparent_without_flusher_witness :
  flushwriter.Write (flushwriter.New example2.unbuffered) [Byte.x61; Byte.x62] ([], [])
  = flushwriter.Write example2.unbuffered [Byte.x61; Byte.x62] ([], []).
Proof.
  apply (proj1 (New_transparent_without_flusher example2.unbuffered
                  [Byte.x61; Byte.x62] ([], []))).
  reflexivity.
Defined.

(** On the buffering writer of the example: three writes through [New]
    reach the client as they are made, the third one fails, being too long,
    and is followed by no flush. *)
Lemma buffered_writes :
  flushwriter.writes (flushwriter.New (flushwriter.observed example2.buffered))
    [[Byte.x61; Byte.x62]; [Byte.x63];
     [Byte.x30; Byte.x31; Byte.x32; Byte.x33; Byte.x34; Byte.x35; Byte.x36; Byte.x37;
      Byte.x38]]
    (([], []), [])
  = ((([Byte.x61; Byte.x62; Byte.x63], []),
      [flushwriter.Written [Byte.x61; Byte.x62] 2 None; flushwriter.Flushed;
       flushwriter.Written [Byte.x63] 1 None; flushwriter.Flushed;
       flushwriter.Written
         [Byte.x30; Byte.x31; Byte.x32; Byte.x33; Byte.x34; Byte.x35; Byte.x36;
          Byte.x37; Byte.x38] 0 (Some (Errorf "short write"))]),
     [(2, None); (1, None); (0, Some (Errorf "short write"))]).
Proof. reflexivity. Qed.

(** * The controller manager patch *)

(** X12. [applyOpenShiftConfigDefaultProjectSelector] panics exactly on the
    configurations in which projectConfig is there and is no object, a null
    included, or in which defaultNodeSelector is there and is no string. *)
Theorem selector_panics_iff_malformed
    (controllerManagerOptions : app.options.KubeControllerManagerOptions)
    (openshiftConfig : gmap string app.json) :
  (∃ msg,
     app.applyOpenShiftConfigDefaultProjectSelector controllerManagerOptions openshiftConfig
     = panic msg)
  ↔ ((∃ v, openshiftConfig !! "projectConfig" = Some v ∧ ∀ m, v ≠ app.JObject m)
     ∨ (∃ m v,
          openshiftConfig !! "projectConfig" = Some (app.JObject m)
          ∧ m !! "defaultNodeSelector" = Some v
          ∧ ∀ s, v ≠ app.JString s)).
Proof.
  unfold app.applyOpenShiftConfigDefaultProjectSelector.
  destruct (openshiftConfig !! "projectConfig") as [v|] eqn:Hp.
  2: { split; [by intros [msg ?]|]. by intros [(v & ? & _)|(m & v & ? & _)]. }
  destruct v as [|b|t|x|l|m].
  1-5: split; [intros _; left; eexists; split; [reflexivity|done]|intros _; by eexists].
  destruct (m !! "defaultNodeSelector") as [v|] eqn:Hd.
  2: { split; [by intros [msg ?]|].
       intros [(v & [= <-] & Hv)|(m' & v & [= <-] & Hv & _)]; [by destruct (Hv m)|].
       congruence. }
  destruct v as [|b|t|x|l|m'].
  1-3, 5-6: split;
    [intros _; right; eexists _, _; split; [reflexivity|split; [exact Hd|done]]
    |intros _; by eexists].
  split; [by intros [msg ?]|].
  intros [(v & [= <-] & Hv)|(m' & v & [= <-] & Hv & Hs)]; [by destruct (Hv m)|].
  rewrite Hd in Hv. injection Hv as <-. by destruct (Hs x).
Qed.

(** X13. When [applyOpenShiftConfigDefaultProjectSelector] returns, it
    returns no error, and it has changed at most the default project node
    selector of the options: to the string that the configuration gives
    under projectConfig and defaultNodeSelector, when both are there, and not
    at all when one of the two is missing. *)
Theorem selector_set_from_configuration
    (controllerManagerOptions options' : app.options.KubeControllerManagerOptions)
    (openshiftConfig : gmap string app.json) (err : option error) :
  app.applyOpenShiftConfigDefaultProjectSelector controllerManagerOptions openshiftConfig
    = ret (options', err) →
  err = None
  ∧ app.OpenShiftConfig (app.options.OpenShiftContext options')
    = app.OpenShiftConfig (app.options.OpenShiftContext controllerManagerOptions)
  ∧ ((∃ m s,
        openshiftConfig !! "projectConfig" = Some (app.JObject m)
        ∧ m !! "defaultNodeSelector" = Some (app.JString s)
        ∧ app.OpenShiftDefaultProjectNodeSelector (app.options.OpenShiftContext options')
          = s)
     ∨ (options' = controllerManagerOptions
        ∧ (openshiftConfig !! "projectConfig" = None
           ∨ ∃ m, openshiftConfig !! "projectConfig" = Some (app.JObject m)
                  ∧ m !! "defaultNodeSelector" = None))).
Proof.
  unfold app.applyOpenShiftConfigDefaultProjectSelector.
  destruct (openshiftConfig !! "projectConfig") as [v|] eqn:Hp.
  2: { intros [= <- <-]. split; [done|]. split; [done|]. right. split; [done|]. by left. }
  destruct v as [|b|t|x|l|m]; try done.
  destruct (m !! "defaultNodeSelector") as [v|] eqn:Hd.
  2: { intros [= <- <-]. split; [done|]. split; [done|]. right. split; [done|].
       right. by exists m. }
  destruct v as [|b|t|x|l|m']; try done.
  intros [= <- <-]. split; [done|]. split; [done|]. left. by exists m, x.
Qed.

Lemma selector_set_from_configuration_witness :
  (None : option error) = None
  ∧ app.OpenShiftConfig
      (app.options.OpenShiftContext (app.options.mk (app.mkContext "" "region=east")))
    = app.OpenShiftConfig (app.options.OpenShiftContext example2.options0)
  ∧ ((∃ m s,
        example2.configured !! "projectConfig" = Some (app.JObject m)
        ∧ m !! "defaultNodeSelector" = Some (app.JString s)
        ∧ app.OpenShiftDefaultProjectNodeSelector
            (app.options.OpenShiftContext
               (app.options.mk (app.mkContext "" "region=east")))
          = s)
     ∨ (app.options.mk (app.mkContext "" "region=east") = example2.options0
        ∧ (example2.configured !! "projectConfig" = None
           ∨ ∃ m, example2.configured !! "projectConfig" = Some (app.JObject m)
                  ∧ m !! "defaultNodeSelector" = None))).
Proof.
  apply (selector_set_from_configuration example2.options0
           (app.options.mk (app.mkContext "" "region=east"))
           example2.configured None).
  reflexivity.
Defined.

(** The two malformed configurations of the example make it panic. *)
Lemma selector_panics_iff_malformed_witness :
  ∃ msg,
    app.applyOpenShiftConfigDefaultProjectSelector example2.options0 example2.nullProject
    = panic msg.
Proof.
  apply (proj2 (selector_panics_iff_malformed example2.options0 example2.nullProject)).
  left. exists app.JNull. split; [reflexivity|discriminate].
Defined.

Section ShimProperties.

Variables (World Kubeconfig Informers : Type).
Variable ReadFile : string → result (list Byte.byte).
Variable ToJSON : list Byte.byte → result (list Byte.byte).
Variable Unmarshal : list Byte.byte → result (gmap string app.json).
Variable Dir : string → string.
Variable applyOpenShiftServiceServingCertCAFunc :
  string → gmap string app.json → World → World * option error.
Variable applyOpenShiftGCConfig :
  app.config.Config Kubeconfig → World → app.config.Config Kubeconfig * World * option error.
Variable newInformerFactory : Kubeconfig → result Informers.

Local Abbreviation Shim :=
  (app.ShimForOpenShift World Kubeconfig Informers ReadFile ToJSON Unmarshal Dir
     applyOpenShiftServiceServingCertCAFunc applyOpenShiftGCConfig newInformerFactory).

(** X14. [ShimForOpenShift] replaces [InformerFactoryOverride] only at its
    very end. Without a configuration file it returns nil and touches
    nothing; whenever it returns an error the override is the one from
    before; and when it returns nil with a configuration file, the file was
    read and decoded, and the override is the factory made from the
    kubeconfig of the controller manager as the earlier steps left it. *)
Theorem Shim_sets_override_last (st : app.state World Kubeconfig Informers) :
  (app.OpenShiftConfig (app.config.OpenShiftContext (app.controllerManager _ _ _ st)) = "" →
   Shim st = ret (st, None))
  ∧ (∀ st' e,
       Shim st = ret (st', Some e) →
       app.InformerFactoryOverride _ _ _ st' = app.InformerFactoryOverride _ _ _ st)
  ∧ (∀ st',
       app.OpenShiftConfig (app.config.OpenShiftContext (app.controllerManager _ _ _ st))
         ≠ "" →
       Shim st = ret (st', None) →
       ∃ openshiftConfig informers,
         app.getOpenShiftConfig ReadFile ToJSON Unmarshal
           (app.OpenShiftConfig
              (app.config.OpenShiftContext (app.controllerManager _ _ _ st)))
           = Ok openshiftConfig
         ∧ newInformerFactory
             (app.config.Kubeconfig_ (app.controllerManager _ _ _ st')) = Ok informers
         ∧ app.InformerFactoryOverride _ _ _ st' = Some informers).
Proof.
  unfold app.ShimForOpenShift. rewrite length_zero.
  set (file := app.OpenShiftConfig _).
  split; [|split].
  - intros ->. reflexivity.
  - intros st' e. case_bool_decide; [done|].
    destruct (app.getOpenShiftConfig _ _ _ _) as [cfg|e0]; [|by intros [= <- _]].
    destruct (applyOpenShiftServiceServingCertCAFunc _ _ _) as [w1 [e1|]];
      [by intros [= <- _]|].
    simpl. destruct (applyOpenShiftGCConfig _ _) as [[cm w2] [e2|]];
      [by intros [= <- _]|].
    simpl. destruct (app.applyOpenShiftConfigDefaultProjectSelector _ _)
      as [[opts [e3|]]|msg]; simpl; [by intros [= <- _]| |done].
    destruct (newInformerFactory _) as [inf|e4]; [done|by intros [= <- _]].
  - intros st' Hfile. rewrite bool_decide_eq_false_2 by done.
    destruct (app.getOpenShiftConfig _ _ _ _) as [cfg|e0]; [|done].
    destruct (applyOpenShiftServiceServingCertCAFunc _ _ _) as [w1 [e1|]]; [done|].
    simpl. destruct (applyOpenShiftGCConfig _ _) as [[cm w2] [e2|]]; [done|].
    simpl. destruct (app.applyOpenShiftConfigDefaultProjectSelector _ _)
      as [[opts [e3|]]|msg]; simpl; [done| |done].
    destruct (newInformerFactory _) as [inf|e4] eqn:Hinf; [|done].
    intros [= <-]. by exists cfg, inf.
Qed.

End ShimProperties.

Lemma Shim_sets_override_last_witness :
  ∃ openshiftConfig informers,
    app.getOpenShiftConfig (λ file, Ok []) (λ bytes, Ok bytes)
      (λ bytes, Ok example2.configured) "/etc/master.yaml"
      = Ok openshiftConfig
    ∧ (λ kubeconfig : string, Ok ("informers for " +:+ kubeconfig)) "kubeconfig"
      = Ok informers
    ∧ Some "informers for kubeconfig" = Some informers.
Proof.
  apply (proj2 (proj2 (Shim_sets_override_last unit string string
                         (λ file, Ok []) (λ bytes, Ok bytes)
                         (λ bytes, Ok example2.configured) (λ file, "/etc")
                         (λ dir config w, (w, None)) (λ cm w, (cm, w, None))
                         (λ kubeconfig, Ok ("informers for " +:+ kubeconfig))
                         example2.manager))
           (app.mkState unit string string
              (app.options.mk (app.mkContext "" "region=east"))
              (app.controllerManager _ _ _ example2.manager)
              (Some "informers for kubeconfig") tt));
    [discriminate|reflexivity].
Defined.

(** With a factory that cannot be made, the patch of the example fails at
    its last step: the selector of the options is set already, and the
    override is not. *)
Lemma shim_fails_after_selector :
  example2.shim (λ kubeconfig, Err (Errorf "no such host")) example2.manager
  = ret (app.mkState unit string string
           (app.options.mk (app.mkContext "" "region=east"))
           (app.controllerManager _ _ _ example2.manager) None tt,
         Some (Errorf "no such host")).
Proof. reflexivity. Qed.

(** * Concurrent bindings, at every moment *)


